(** * js/modules/google-maps.js

    A shallow embedding of the location-picking widget: the three classes
    [MapOptions], [Geocoder] and [Map] of the module, with the host page
    (document, global scope, geolocation) and the Google Maps objects the
    classes drive kept as explicit state.

    Conventions.
    - A JavaScript call that may throw returns a [completion]; a method that
      also writes to [this] or to the page is a state transformer [M], and a
      throw keeps every write made before it.
    - Coordinates are binary64 numbers ([float]); radii and zoom levels are
      integer-valued numbers and are kept in [Z].
    - [document.querySelector] is read from a finite map from selector
      strings to elements: every selector is taken to parse, the SyntaxError
      of one that does not is outside the model.
    - [google.maps.LatLng] keeps the two numbers it is built from, as the
      class does for a latitude and a longitude in range; the [google]
      global is taken to be there.
    - Of [autocompleteHandler] the part up to the call of [geocode] is
      modelled; the [locationChanged] callback of the options is not. *)

From Stdlib Require Import ZArith List String Ascii Bool Lia PrimFloat.
From stdpp Require Import gmap strings.
Import ListNotations.

Set Warnings "-inexact-float".
Local Open Scope string_scope.
Local Open Scope Z_scope.

(** ** JavaScript values, completions and [parseInt] *)

Module JS.

Inductive error :=
| TypeError
| ReferenceError
| Error (message : string).

Inductive completion (A : Type) :=
| Normal (a : A)
| Throw (e : error).
Arguments Normal {A} a.
Arguments Throw {A} e.

Definition bind {A B} (c : completion A) (k : A -> completion B) : completion B :=
  match c with
  | Normal a => k a
  | Throw e => Throw e
  end.

Inductive value :=
| VUndefined
| VNull
| VBoolean (b : bool)
| VNumber (x : float)
| VInteger (n : Z)
| VObject.

Definition is_nan (x : float) : bool := negb (PrimFloat.eqb x x).

(** ToBoolean: [undefined], [null], [false], [+0], [-0] and [NaN] are falsy. *)
Definition ToBoolean (v : value) : bool :=
  match v with
  | VUndefined | VNull => false
  | VBoolean b => b
  | VNumber x => negb (PrimFloat.eqb x 0%float) && negb (is_nan x)
  | VInteger n => negb (n =? 0)
  | VObject => true
  end.

(** A string operand of [&&]: absent ([undefined]) and the empty string
    are falsy. *)
Definition truthy_string (o : option string) : bool :=
  match o with
  | Some s => negb (String.eqb s "")
  | None => false
  end.

Definition is_space (c : ascii) : bool :=
  let n := N_of_ascii c in
  ((n =? 32) || ((9 <=? n) && (n <=? 13)))%N.

Fixpoint skip_spaces (s : string) : string :=
  match s with
  | String c s' => if is_space c then skip_spaces s' else s
  | EmptyString => s
  end.

Definition digit_value (c : ascii) : option Z :=
  let n := Z.of_N (N_of_ascii c) in
  if (48 <=? n) && (n <=? 57) then Some (n - 48)
  else if (97 <=? n) && (n <=? 122) then Some (n - 87)
  else if (65 <=? n) && (n <=? 90) then Some (n - 55)
  else None.

(** The longest prefix of digits of the radix; [None] when it is empty. *)
Fixpoint digits (radix : Z) (s : string) (acc : option Z) : option Z :=
  match s with
  | String c s' =>
      match digit_value c with
      | Some d =>
          if d <? radix
          then digits radix s' (Some (radix * default 0 acc + d))
          else acc
      | None => acc
      end
  | EmptyString => acc
  end.

(** [parseInt(s)] without a radix argument; [None] is [NaN]. The value is
    the mathematical integer of the digits read. *)
Definition parseInt (s : string) : option Z :=
  let s := skip_spaces s in
  let '(sign, s) :=
    match s with
    | String "-"%char s' => (-1, s')
    | String "+"%char s' => (1, s')
    | _ => (1, s)
    end in
  let '(radix, s) :=
    match s with
    | String "0"%char (String "x"%char s') => (16, s')
    | String "0"%char (String "X"%char s') => (16, s')
    | _ => (10, s)
    end in
  option_map (Z.mul sign) (digits radix s None).

End JS.
Import JS.

Notation "'let!' x ':=' c 'in' k" := (JS.bind c (fun x => k))
  (at level 10, x name, c at level 100, k at level 200, only parsing).

(** ** The host page *)

Record Element := { value : string }.

(** [document.querySelector(selector)]: the element or [null]. *)
Definition querySelector (document : gmap string Element) (selector : string)
  : option Element :=
  document !! selector.

(** [selector && document.querySelector(selector)] read as a condition. *)
Definition resolves (document : gmap string Element) (selector : option string) : bool :=
  truthy_string selector &&
  match selector with
  | Some s => match querySelector document s with Some _ => true | None => false end
  | None => false
  end.

(** ** class MapOptions *)

Record Coordinates := { latitude : float; longitude : float }.

Module Selectors.
Record t := {
  map : option string;
  autocomplete : option string;
  radius : option string;
  country : option string
}.
End Selectors.

Module Options.
Record t := {
  selectors : option Selectors.t;
  location : option Coordinates;
  zoom : option Z;
  mapType : option string
}.
End Options.

Module MapOptions.

Record t := { _options : Options.t }.

Definition map_required : string := "Map element selector is required!".
Definition autocomplete_required : string :=
  "Autocomplete input selector is required to scope autocomplete results by country!".

Definition constructor (document : gmap string Element) (options : Options.t)
  : completion t :=
  match Options.selectors options with
  | None => Throw (Error map_required)
  | Some s =>
      if negb (resolves document (Selectors.map s))
      then Throw (Error map_required)
      else if resolves document (Selectors.country s)
      then if negb (resolves document (Selectors.autocomplete s))
           then Throw (Error autocomplete_required)
           else Normal {| _options := options |}
      else Normal {| _options := options |}
  end.

(** [this._options.selectors.<field>]; reading a field of an absent
    [selectors] is a TypeError. *)
Definition selector (field : Selectors.t -> option string) (this : t)
  : completion (option string) :=
  match Options.selectors (_options this) with
  | Some s => Normal (field s)
  | None => Throw TypeError
  end.

Definition map (this : t) : completion (option string) :=
  selector Selectors.map this.

Definition autocomplete (document : gmap string Element) (this : t)
  : completion string :=
  let! s := selector Selectors.autocomplete this in
  Normal (if resolves document s then default "" s else "").

Definition radius (document : gmap string Element) (this : t)
  : completion (option string) :=
  let! s := selector Selectors.radius this in
  Normal (if resolves document s then s else None).

Definition country (document : gmap string Element) (this : t)
  : completion (option string) :=
  let! s := selector Selectors.country this in
  Normal (if resolves document s then s else None).

Definition location (this : t) : option Coordinates :=
  Options.location (_options this).

Definition zoom (this : t) : Z :=
  match Options.zoom (_options this) with
  | Some z => if z =? 0 then 11 else z
  | None => 11
  end.

Definition mapType (this : t) : string :=
  if truthy_string (Options.mapType (_options this))
  then default "hybrid" (Options.mapType (_options this))
  else "hybrid".

(** [this.radius ? parseInt(document.querySelector(this.radius).value) || 5000 : 5000] *)
Definition radiusInMeters (document : gmap string Element) (this : t)
  : completion Z :=
  let! r := radius document this in
  match r with
  | Some _ =>
      let! r' := radius document this in
      match querySelector document (default "" r') with
      | Some el =>
          Normal match parseInt (value el) with
                 | Some n => if n =? 0 then 5000 else n
                 | None => 5000
                 end
      | None => Throw TypeError
      end
  | None => Normal 5000
  end.

(** [this._options.location && this._options.location.latitude
    && this._options.location.longitude]: the first falsy operand, or the
    last one. *)
Definition hasLocation (this : t) : JS.value :=
  match Options.location (_options this) with
  | None => VUndefined
  | Some l =>
      if ToBoolean (VNumber (latitude l))
      then VNumber (longitude l)
      else VNumber (latitude l)
  end.

End MapOptions.

(** ** class Geocoder *)

(** [google.maps.LatLng]. *)
Record LatLng := { lat : float; lng : float }.

Module Geocoder.

Inductive GeocoderStatus :=
| OK
| ZERO_RESULTS
| OVER_QUERY_LIMIT
| REQUEST_DENIED
| INVALID_REQUEST
| UNKNOWN_ERROR
| ERROR.

Definition status_eqb (a b : GeocoderStatus) : bool :=
  match a, b with
  | OK, OK | ZERO_RESULTS, ZERO_RESULTS | OVER_QUERY_LIMIT, OVER_QUERY_LIMIT
  | REQUEST_DENIED, REQUEST_DENIED | INVALID_REQUEST, INVALID_REQUEST
  | UNKNOWN_ERROR, UNKNOWN_ERROR | ERROR, ERROR => true
  | _, _ => false
  end.

(** What the geocoding service hands to the callback. *)
Record Component := {
  long_name : string;
  short_name : string;
  types : list string
}.

Record Result := {
  address_components : list Component;
  formatted_address : string
}.

Definition Response : Type := list Result * GeocoderStatus.

(** The object the setter builds; [None] is [null]. *)
Record Name := { longName : option string; shortName : option string }.

Record AddressComponents := {
  postalCode : Name;
  streetNumber : Name;
  streetName : Name;
  city : Name;
  district : Name;
  stateOrProvince : Name;
  country : Name;
  formattedAddress : string
}.

Definition null : Name := {| longName := None; shortName := None |}.

Definition names (component : Component) : Name :=
  {| longName := Some (long_name component);
     shortName := Some (short_name component) |}.

Definition with_postalCode (n : Name) (a : AddressComponents) :=
  {| postalCode := n; streetNumber := streetNumber a; streetName := streetName a;
     city := city a; district := district a; stateOrProvince := stateOrProvince a;
     country := country a; formattedAddress := formattedAddress a |}.
Definition with_streetNumber (n : Name) (a : AddressComponents) :=
  {| postalCode := postalCode a; streetNumber := n; streetName := streetName a;
     city := city a; district := district a; stateOrProvince := stateOrProvince a;
     country := country a; formattedAddress := formattedAddress a |}.
Definition with_streetName (n : Name) (a : AddressComponents) :=
  {| postalCode := postalCode a; streetNumber := streetNumber a; streetName := n;
     city := city a; district := district a; stateOrProvince := stateOrProvince a;
     country := country a; formattedAddress := formattedAddress a |}.
Definition with_city (n : Name) (a : AddressComponents) :=
  {| postalCode := postalCode a; streetNumber := streetNumber a; streetName := streetName a;
     city := n; district := district a; stateOrProvince := stateOrProvince a;
     country := country a; formattedAddress := formattedAddress a |}.
Definition with_district (n : Name) (a : AddressComponents) :=
  {| postalCode := postalCode a; streetNumber := streetNumber a; streetName := streetName a;
     city := city a; district := n; stateOrProvince := stateOrProvince a;
     country := country a; formattedAddress := formattedAddress a |}.
Definition with_stateOrProvince (n : Name) (a : AddressComponents) :=
  {| postalCode := postalCode a; streetNumber := streetNumber a; streetName := streetName a;
     city := city a; district := district a; stateOrProvince := n;
     country := country a; formattedAddress := formattedAddress a |}.
Definition with_country (n : Name) (a : AddressComponents) :=
  {| postalCode := postalCode a; streetNumber := streetNumber a; streetName := streetName a;
     city := city a; district := district a; stateOrProvince := stateOrProvince a;
     country := n; formattedAddress := formattedAddress a |}.
Definition with_formattedAddress (s : string) (a : AddressComponents) :=
  {| postalCode := postalCode a; streetNumber := streetNumber a; streetName := streetName a;
     city := city a; district := district a; stateOrProvince := stateOrProvince a;
     country := country a; formattedAddress := s |}.

(** [component.types.indexOf(tag) >= 0] *)
Definition has_type (tag : string) (component : Component) : bool :=
  existsb (String.eqb tag) (types component).

(** The body of the [for] loop: one [if ... else if ...] chain. *)
Definition assign (a : AddressComponents) (component : Component)
  : AddressComponents :=
  if has_type "postal_code" component then with_postalCode (names component) a
  else if has_type "street_number" component then with_streetNumber (names component) a
  else if has_type "route" component then with_streetName (names component) a
  else if has_type "locality" component then with_city (names component) a
  else if has_type "sublocality" component then with_district (names component) a
  else if has_type "administrative_area_level_1" component
       then with_stateOrProvince (names component) a
  else if has_type "country" component then with_country (names component) a
  else a.

Definition blank : AddressComponents :=
  {| postalCode := null; streetNumber := null; streetName := null; city := null;
     district := null; stateOrProvince := null; country := null;
     formattedAddress := "" |}.

(** The geocoder object, with the promises it has handed out and the
    callbacks that are still due: replies of the service and timers. *)
Record Request := { location : LatLng }.

Inductive PromiseState :=
| Pending
| Fulfilled (v : AddressComponents)
| Rejected (reason : GeocoderStatus).

Inductive Task :=
| Reply (promise : nat) (options : Request)
| Timer (delay : Z) (options : Request).

Record t := {
  _addressComponents : option AddressComponents;
  promises : list PromiseState;
  tasks : list Task;
  sent : list Request;
  clock : Z
}.

Definition constructor : t :=
  {| _addressComponents := None; promises := []; tasks := []; sent := []; clock := 0 |}.

(** [set addressComponents(results)]: the loop runs over
    [results[0].address_components] from the last index down to 0. *)
Definition set_addressComponents (results : list Result) (this : t) : completion t :=
  match results with
  | [] => Throw TypeError
  | r :: _ =>
      let addressComponents :=
        fold_left assign (rev (address_components r)) blank in
      Normal {| _addressComponents :=
                  Some (with_formattedAddress (formatted_address r) addressComponents);
                promises := promises this; tasks := tasks this;
                sent := sent this; clock := clock this |}
  end.

Definition addressComponents (this : t) : option AddressComponents :=
  _addressComponents this.

Definition formattedAddress_of (this : t) : string :=
  match addressComponents this with
  | Some a => formattedAddress a
  | None => ""
  end.

(** [resolve] and [reject] act on a pending promise only. *)
Definition settle (p : nat) (s : PromiseState) (this : t) : t :=
  {| _addressComponents := _addressComponents this;
     promises := match promises this !! p with
                 | Some Pending => <[p := s]> (promises this)
                 | _ => promises this
                 end;
     tasks := tasks this; sent := sent this; clock := clock this |}.

Definition enqueue (k : Task) (this : t) : t :=
  {| _addressComponents := _addressComponents this; promises := promises this;
     tasks := tasks this ++ [k]; sent := sent this; clock := clock this |}.

(** [geocode(options)]: a new promise; the request goes to the service at
    once, its callback is due when the service replies. *)
Definition geocode (options : Request) (this : t) : nat * t :=
  let p := length (promises this) in
  (p, {| _addressComponents := _addressComponents this;
         promises := promises this ++ [Pending];
         tasks := tasks this ++ [Reply p options];
         sent := sent this ++ [options];
         clock := clock this |}).

(** The callback given to the service by the call that returned promise [p]. *)
Definition callback (p : nat) (options : Request) (reply : Response) (this : t) : t :=
  let '(results, status) := reply in
  if status_eqb status OK && (0 <? Z.of_nat (length results))
  then match set_addressComponents results this with
       | Normal this' =>
           match addressComponents this' with
           | Some a => settle p (Fulfilled a) this'
           | None => this'
           end
       | Throw _ => this
       end
  else if status_eqb status OVER_QUERY_LIMIT
  then enqueue (Timer 1000 options) this
  else settle p (Rejected status) this.

Definition pop (this : t) : t :=
  {| _addressComponents := _addressComponents this; promises := promises this;
     tasks := tl (tasks this); sent := sent this; clock := clock this |}.

Definition advance (delay : Z) (this : t) : t :=
  {| _addressComponents := _addressComponents this; promises := promises this;
     tasks := tasks this; sent := sent this; clock := clock this + delay |}.

(** The event loop: the callback that is due next runs; a reply is taken
    from what the service answers, in order. The promise of the call made
    by a timer is dropped, as in [function () { self.geocode(options); }]. *)
Fixpoint run (fuel : nat) (replies : list Response) (this : t) : t :=
  match fuel with
  | O => this
  | S fuel' =>
      match tasks this with
      | [] => this
      | Timer delay options :: _ =>
          run fuel' replies (snd (geocode options (advance delay (pop this))))
      | Reply p options :: _ =>
          match replies with
          | [] => this
          | reply :: replies' => run fuel' replies' (callback p options reply (pop this))
          end
      end
  end.

(** *** The slots, for stating what the setter computes *)

(** The seven slots, in the order in which the chain tests their type
    tags. *)
Inductive Slot :=
| PostalCode
| StreetNumber
| StreetName
| City
| District
| StateOrProvince
| Country.

Definition slots : list Slot :=
  [PostalCode; StreetNumber; StreetName; City; District; StateOrProvince; Country].

Definition category (s : Slot) : string :=
  match s with
  | PostalCode => "postal_code"
  | StreetNumber => "street_number"
  | StreetName => "route"
  | City => "locality"
  | District => "sublocality"
  | StateOrProvince => "administrative_area_level_1"
  | Country => "country"
  end.

Definition slot (s : Slot) (a : AddressComponents) : Name :=
  match s with
  | PostalCode => postalCode a
  | StreetNumber => streetNumber a
  | StreetName => streetName a
  | City => city a
  | District => district a
  | StateOrProvince => stateOrProvince a
  | Country => country a
  end.

Definition slot_eqb (a b : Slot) : bool :=
  match a, b with
  | PostalCode, PostalCode | StreetNumber, StreetNumber | StreetName, StreetName
  | City, City | District, District | StateOrProvince, StateOrProvince
  | Country, Country => true
  | _, _ => false
  end.

(** The slot whose branch of the chain a component takes: the first slot,
    in the order of [slots], whose type tag the component carries. *)
Definition branch (component : Component) : option Slot :=
  find (fun s => has_type (category s) component) slots.

Definition takes (s : Slot) (component : Component) : bool :=
  match branch component with
  | Some s' => slot_eqb s s'
  | None => false
  end.

Definition fill (s : Slot) (n : Name) (a : AddressComponents) : AddressComponents :=
  match s with
  | PostalCode => with_postalCode n a
  | StreetNumber => with_streetNumber n a
  | StreetName => with_streetName n a
  | City => with_city n a
  | District => with_district n a
  | StateOrProvince => with_stateOrProvince n a
  | Country => with_country n a
  end.

Definition store (a : AddressComponents) (this : t) : t :=
  {| _addressComponents := Some a; promises := promises this;
     tasks := tasks this; sent := sent this; clock := clock this |}.

(** A promise that no callback still due can settle. *)
Definition orphan (p : nat) (this : t) : Prop :=
  promises this !! p = Some Pending
  /\ Forall (fun k => match k with
                      | Reply q _ => q <> p
                      | Timer _ _ => True
                      end) (tasks this).

Definition names_of (o : option Component) : Name :=
  match o with
  | Some component => names component
  | None => null
  end.

(** The reading of the specification: a slot is filled from the first
    component, in list order, whose type tags include the slot's. *)
Definition spec_slot (s : Slot) (components : list Component) : Name :=
  names_of (find (has_type (category s)) components).

End Geocoder.

(** ** class Map *)

(** The objects of the maps library that the widget creates and moves. An
    absent [center] or [position] is [undefined]. *)
Record GMap := {
  map_container : option Element;
  map_center : option LatLng;
  map_zoom : Z;
  mapTypeId : string;
  map_draggable : bool
}.

Record Marker := { position : option LatLng; marker_draggable : bool }.

Record Circle := { circle_center : option LatLng; circle_radius : Z }.

(** The page the module runs in: the document, the global scope, whether
    [navigator.geolocation] is there, and the callbacks the widget has
    handed to the page. *)
Record Page := {
  document : gmap string Element;
  globals : gmap string JS.value;
  geolocation : bool;
  position_requested : bool;
  place_changed : bool;
  change : bool
}.

Module Map.

Record t := {
  _mapOptions : option MapOptions.t;
  _isLoaded : bool;
  _gMap : option GMap;
  _geocoder : option Geocoder.t;
  _marker : option Marker;
  _circle : option Circle;
  _autocomplete : option string;
  _currentLocation : option LatLng
}.

Record State := { page : Page; this : t }.

(** *** State transformers that may throw *)

Definition M (A : Type) : Type := State -> completion A * State.

Definition ret {A} (a : A) : M A := fun s => (Normal a, s).
Definition throw {A} (e : error) : M A := fun s => (Throw e, s).
Definition lift {A} (c : completion A) : M A := fun s => (c, s).
Definition gets {A} (f : State -> A) : M A := fun s => (Normal (f s), s).
Definition modify (f : State -> State) : M unit := fun s => (Normal tt, f s).

Definition mbind {A B} (m : M A) (k : A -> M B) : M B :=
  fun s =>
    match m s with
    | (Normal a, s') => k a s'
    | (Throw e, s') => (Throw e, s')
    end.

Notation "'do!' x ':=' m 'in' k" := (mbind m (fun x => k))
  (at level 10, x name, m at level 100, k at level 200, only parsing).
Notation "m ';;' k" := (mbind m (fun _ => k))
  (at level 100, k at level 200, right associativity, only parsing).

(** [o.method(...)] on a reference that may be [null] or [undefined]. *)
Definition deref {A} (o : option A) : M A :=
  match o with
  | Some a => ret a
  | None => throw TypeError
  end.

(** *** Field updates *)

Definition on_this (f : t -> t) : State -> State :=
  fun s => {| page := page s; this := f (this s) |}.
Definition on_page (f : Page -> Page) : State -> State :=
  fun s => {| page := f (page s); this := this s |}.

Definition with_mapOptions (v : option MapOptions.t) (m : t) : t :=
  {| _mapOptions := v; _isLoaded := _isLoaded m; _gMap := _gMap m;
     _geocoder := _geocoder m; _marker := _marker m; _circle := _circle m;
     _autocomplete := _autocomplete m; _currentLocation := _currentLocation m |}.
Definition with_isLoaded (v : bool) (m : t) : t :=
  {| _mapOptions := _mapOptions m; _isLoaded := v; _gMap := _gMap m;
     _geocoder := _geocoder m; _marker := _marker m; _circle := _circle m;
     _autocomplete := _autocomplete m; _currentLocation := _currentLocation m |}.
Definition with_gMap (v : option GMap) (m : t) : t :=
  {| _mapOptions := _mapOptions m; _isLoaded := _isLoaded m; _gMap := v;
     _geocoder := _geocoder m; _marker := _marker m; _circle := _circle m;
     _autocomplete := _autocomplete m; _currentLocation := _currentLocation m |}.
Definition with_geocoder (v : option Geocoder.t) (m : t) : t :=
  {| _mapOptions := _mapOptions m; _isLoaded := _isLoaded m; _gMap := _gMap m;
     _geocoder := v; _marker := _marker m; _circle := _circle m;
     _autocomplete := _autocomplete m; _currentLocation := _currentLocation m |}.
Definition with_marker (v : option Marker) (m : t) : t :=
  {| _mapOptions := _mapOptions m; _isLoaded := _isLoaded m; _gMap := _gMap m;
     _geocoder := _geocoder m; _marker := v; _circle := _circle m;
     _autocomplete := _autocomplete m; _currentLocation := _currentLocation m |}.
Definition with_circle (v : option Circle) (m : t) : t :=
  {| _mapOptions := _mapOptions m; _isLoaded := _isLoaded m; _gMap := _gMap m;
     _geocoder := _geocoder m; _marker := _marker m; _circle := v;
     _autocomplete := _autocomplete m; _currentLocation := _currentLocation m |}.
Definition with_autocomplete (v : option string) (m : t) : t :=
  {| _mapOptions := _mapOptions m; _isLoaded := _isLoaded m; _gMap := _gMap m;
     _geocoder := _geocoder m; _marker := _marker m; _circle := _circle m;
     _autocomplete := v; _currentLocation := _currentLocation m |}.
Definition with_currentLocation (v : option LatLng) (m : t) : t :=
  {| _mapOptions := _mapOptions m; _isLoaded := _isLoaded m; _gMap := _gMap m;
     _geocoder := _geocoder m; _marker := _marker m; _circle := _circle m;
     _autocomplete := _autocomplete m; _currentLocation := v |}.

Definition with_document (v : gmap string Element) (p : Page) : Page :=
  {| document := v; globals := globals p; geolocation := geolocation p;
     position_requested := position_requested p;
     place_changed := place_changed p; change := change p |}.
Definition with_globals (v : gmap string JS.value) (p : Page) : Page :=
  {| document := document p; globals := v; geolocation := geolocation p;
     position_requested := position_requested p;
     place_changed := place_changed p; change := change p |}.
Definition with_position_requested (v : bool) (p : Page) : Page :=
  {| document := document p; globals := globals p; geolocation := geolocation p;
     position_requested := v;
     place_changed := place_changed p; change := change p |}.
Definition with_place_changed (v : bool) (p : Page) : Page :=
  {| document := document p; globals := globals p; geolocation := geolocation p;
     position_requested := position_requested p;
     place_changed := v; change := change p |}.
Definition with_change (v : bool) (p : Page) : Page :=
  {| document := document p; globals := globals p; geolocation := geolocation p;
     position_requested := position_requested p;
     place_changed := place_changed p; change := v |}.

(** The setters of the library objects. *)
Definition setCenter (c : option LatLng) (g : GMap) : GMap :=
  {| map_container := map_container g; map_center := c; map_zoom := map_zoom g;
     mapTypeId := mapTypeId g; map_draggable := map_draggable g |}.
Definition setZoom (z : Z) (g : GMap) : GMap :=
  {| map_container := map_container g; map_center := map_center g; map_zoom := z;
     mapTypeId := mapTypeId g; map_draggable := map_draggable g |}.
Definition setPosition (c : option LatLng) (k : Marker) : Marker :=
  {| position := c; marker_draggable := marker_draggable k |}.
Definition circle_setCenter (c : option LatLng) (k : Circle) : Circle :=
  {| circle_center := c; circle_radius := circle_radius k |}.
Definition setRadius (r : Z) (k : Circle) : Circle :=
  {| circle_center := circle_center k; circle_radius := r |}.

(** *** Methods *)

(** What a caller may pass where a location is expected. *)
Inductive Location :=
| LUndefined
| LNull
| LObject (c : Coordinates)
| LLatLng (l : LatLng).

Definition truthy_location (location : Location) : bool :=
  match location with
  | LUndefined | LNull => false
  | LObject _ | LLatLng _ => true
  end.

(** What a caller may pass to [create] and to the [mapOptions] setter. *)
Inductive Argument :=
| AUndefined
| AOptions (options : Options.t)
| AMapOptions (instance : MapOptions.t).

(** [new Map()], as the module does on its last lines. *)
Definition constructor : t :=
  {| _mapOptions := None; _isLoaded := false; _gMap := None; _geocoder := None;
     _marker := None; _circle := None; _autocomplete := None;
     _currentLocation := None |}.

Definition mapLoadedListener : M unit :=
  modify (on_this (with_isLoaded true)).

(** [set mapOptions(options)]: an instance of [MapOptions] is ignored. *)
Definition set_mapOptions (options : Argument) : M unit :=
  match options with
  | AMapOptions _ => ret tt
  | AOptions o =>
      do! d := gets (fun s => document (page s)) in
      do! mo := lift (MapOptions.constructor d o) in
      modify (on_this (with_mapOptions (Some mo)))
  | AUndefined => throw TypeError
  end.

(** [set currentLocation(location)]: [location.latitude] is read from
    whatever is not a [LatLng]. *)
Definition set_currentLocation (location : Location) : M unit :=
  match location with
  | LLatLng l => modify (on_this (with_currentLocation (Some l)))
  | LObject c =>
      modify (on_this (with_currentLocation
                         (Some {| lat := latitude c; lng := longitude c |})))
  | LUndefined | LNull => throw TypeError
  end.

Definition kilometersToMeters (km : Z) : Z := km * 1000.

(** The value the [if ... else if ...] chain of [getZoom] assigns. *)
Definition zoom_level (radiusInMeters : Z) : Z :=
  if radiusInMeters <=? kilometersToMeters 10 then 11
  else if radiusInMeters <=? kilometersToMeters 20 then 10
  else if radiusInMeters <=? kilometersToMeters 40 then 9
  else if radiusInMeters <=? kilometersToMeters 75 then 8
  else if radiusInMeters <=? kilometersToMeters 100 then 7
  else if radiusInMeters <=? kilometersToMeters 200 then 6
  else 4.

(** [name = v] where neither the method nor the module declares [name]:
    class bodies are strict code, so the write goes to a binding of the
    global scope if there is one and is a ReferenceError otherwise. *)
Definition assign_global (name : string) (v : JS.value) : M unit :=
  fun s =>
    match globals (page s) !! name with
    | Some _ => (Normal tt, on_page (with_globals (<[name := v]> (globals (page s)))) s)
    | None => (Throw ReferenceError, s)
    end.

(** [self.mapOptions] followed by a property read. *)
Definition mapOptions : M MapOptions.t :=
  do! o := gets (fun s => _mapOptions (this s)) in deref o.

(** [self.mapOptions.radiusInMeters] *)
Definition radiusInMeters : M Z :=
  do! mo := mapOptions in
  do! d := gets (fun s => document (page s)) in
  lift (MapOptions.radiusInMeters d mo).

(** [getZoom()]: the radius is read from the page, [zoom] is assigned and
    returned; there is no declaration of [zoom]. *)
Definition getZoom : M Z :=
  do! r := radiusInMeters in
  let zoom := zoom_level r in
  assign_global "zoom" (VInteger zoom) ;;
  ret zoom.

Definition addCircle : M unit :=
  do! c := gets (fun s => _currentLocation (this s)) in
  do! r := radiusInMeters in
  modify (on_this (with_circle (Some {| circle_center := c; circle_radius := r |}))).

Definition setupAutocompleteListener : M unit :=
  do! mo := mapOptions in
  do! d := gets (fun s => document (page s)) in
  do! a := lift (MapOptions.autocomplete d mo) in
  if String.eqb a "" then ret tt
  else
    modify (on_this (with_autocomplete (Some a))) ;;
    modify (on_page (with_place_changed true)).

Definition registerRadiusInputListener : M unit :=
  do! mo := mapOptions in
  do! d := gets (fun s => document (page s)) in
  do! r := lift (MapOptions.radius d mo) in
  match r with
  | None => ret tt
  | Some sel =>
      do! _ := deref (querySelector d sel) in
      modify (on_page (with_change true))
  end.

Definition createMap : M unit :=
  do! mo := mapOptions in
  do! d := gets (fun s => document (page s)) in
  do! sel := lift (MapOptions.map mo) in
  let container := querySelector d (default "undefined" sel) in
  do! c := gets (fun s => _currentLocation (this s)) in
  do! z := getZoom in
  let zoom := if z =? 0 then MapOptions.zoom mo else z in
  modify (on_this (with_gMap
    (Some {| map_container := container; map_center := c; map_zoom := zoom;
             mapTypeId := MapOptions.mapType mo; map_draggable := false |}))) ;;
  modify (on_this (with_marker (Some {| position := c; marker_draggable := false |}))) ;;
  modify (on_this (with_geocoder (Some Geocoder.constructor))) ;;
  addCircle ;;
  setupAutocompleteListener ;;
  registerRadiusInputListener.

Definition geoLocationSuccess (coords : Coordinates) : M unit :=
  set_currentLocation (LObject coords) ;;
  createMap.

Definition getLocationError : M unit :=
  set_currentLocation
    (LObject {| latitude := 5.6044018; longitude := -0.12188990000000001 |}) ;;
  createMap.

Definition getUsersLocation : M unit :=
  do! g := gets (fun s => geolocation (page s)) in
  if g then modify (on_page (with_position_requested true))
  else getLocationError.

Definition create (options : Argument) : M unit :=
  set_mapOptions options ;;
  do! loaded := gets (fun s => _isLoaded (this s)) in
  if negb loaded then throw (Error "Map library not loaded!")
  else
    do! o := gets (fun s => _mapOptions (this s)) in
    match o with
    | None => throw (Error "Map options not set!")
    | Some mo =>
        if negb (ToBoolean (MapOptions.hasLocation mo))
        then getUsersLocation
        else
          set_currentLocation
            match MapOptions.location mo with
            | Some c => LObject c
            | None => LNull
            end ;;
          createMap
    end.

(** The answer of [navigator.geolocation.getCurrentPosition]: a position,
    or a failure. The page keeps one pending request: the answer to a
    second request made before the first was answered is not modelled. The
    callbacks themselves are [geoLocationSuccess] and [getLocationError]. *)
Definition position_reply (answer : option Coordinates) : M unit :=
  do! due := gets (fun s => position_requested (page s)) in
  if due then
    modify (on_page (with_position_requested false)) ;;
    match answer with
    | Some coords => geoLocationSuccess coords
    | None => getLocationError
    end
  else ret tt.

Record Place := { geometry : option LatLng }.

(** The part of [autocompleteHandler] that runs before the promise of
    [geocode] settles. *)
Definition autocompleteHandler (place : Place) : M unit :=
  match geometry place with
  | None => ret tt
  | Some l =>
      do! g := (do! o := gets (fun s => _gMap (this s)) in deref o) in
      modify (on_this (with_gMap (Some (setCenter (Some l) g)))) ;;
      do! m := (do! o := gets (fun s => _marker (this s)) in deref o) in
      modify (on_this (with_marker (Some (setPosition (Some l) m)))) ;;
      do! k := (do! o := gets (fun s => _circle (this s)) in deref o) in
      modify (on_this (with_circle (Some (circle_setCenter (Some l) k)))) ;;
      set_currentLocation (LLatLng l) ;;
      do! gc := (do! o := gets (fun s => _geocoder (this s)) in deref o) in
      modify (on_this (with_geocoder
        (Some (snd (Geocoder.geocode {| Geocoder.location := l |} gc)))))
  end.

Definition updateCircleRadius : M unit :=
  do! k := (do! o := gets (fun s => _circle (this s)) in deref o) in
  do! r := radiusInMeters in
  modify (on_this (with_circle (Some (setRadius r k)))) ;;
  do! g := (do! o := gets (fun s => _gMap (this s)) in deref o) in
  do! z := getZoom in
  modify (on_this (with_gMap (Some (setZoom z g)))).

Definition radiusListener : M unit := updateCircleRadius.

(** [if (self.currentLocation = location)]: the setter runs, the condition
    is the value of [location]. *)
Definition updateLocation (location : Location) : M unit :=
  set_currentLocation location ;;
  if truthy_location location then
    do! c := gets (fun s => _currentLocation (this s)) in
    do! g := (do! o := gets (fun s => _gMap (this s)) in deref o) in
    modify (on_this (with_gMap (Some (setCenter c g)))) ;;
    do! m := gets (fun s => _marker (this s)) in
    match m with
    | Some m => modify (on_this (with_marker (Some (setPosition c m))))
    | None => ret tt
    end ;;
    do! k := gets (fun s => _circle (this s)) in
    match k with
    | Some k => modify (on_this (with_circle (Some (circle_setCenter c k))))
    | None => ret tt
    end
  else ret tt.

(** *** What the page can make the widget do *)

(** The centers of the three things drawn. *)
Definition centers (s : State) :
  option (option LatLng) * option (option LatLng) * option (option LatLng) :=
  (map_center <$> _gMap (this s),
   position <$> _marker (this s),
   circle_center <$> _circle (this s)).

(** The service answers requests of the geocoder, timers fire. *)
Definition service (fuel : nat) (replies : list Geocoder.Response) : M unit :=
  do! o := gets (fun s => _geocoder (this s)) in
  match o with
  | Some g => modify (on_this (with_geocoder (Some (Geocoder.run fuel replies g))))
  | None => ret tt
  end.

(** The states of the module's [map] object in a page: it starts as
    [new Map()] with no callback handed out; the page calls the methods
    [mapLoadedListener], [create] and [updateLocation], answers the position
    request, fires the listeners that were registered, edits the document,
    and the geocoding service answers. A page that writes to the accessors
    of the object directly ([currentLocation], [isLoaded], [mapOptions]) is
    not among these transitions. *)
Inductive reachable : State -> Prop :=
| reach_new (p : Page) :
    position_requested p = false -> place_changed p = false -> change p = false ->
    reachable {| page := p; this := constructor |}
| reach_loaded s : reachable s -> reachable (snd (mapLoadedListener s))
| reach_create options s : reachable s -> reachable (snd (create options s))
| reach_updateLocation location s :
    reachable s -> reachable (snd (updateLocation location s))
| reach_position answer s : reachable s -> reachable (snd (position_reply answer s))
| reach_place place s :
    reachable s -> place_changed (page s) = true ->
    reachable (snd (autocompleteHandler place s))
| reach_radius s :
    reachable s -> change (page s) = true -> reachable (snd (radiusListener s))
| reach_service fuel replies s :
    reachable s -> reachable (snd (service fuel replies s))
| reach_edit d s : reachable s -> reachable (on_page (with_document d) s).

End Map.

(** ** The getters of Map *)

Module Getters.



(** [get addressComponents()]: those of the geocoder, [null] without one. *)
Definition addressComponents (m : Map.t) : option Geocoder.AddressComponents :=
  match Map._geocoder m with
  | Some g => Geocoder.addressComponents g
  | None => None
  end.

End Getters.

(** * Configurations, pages and predicates for the properties *)

Import Map.

(** A binding of the configuration is resolvable: [selectors] is there,
    the selector is a non-empty string and the document has an element
    for it. *)
Definition binding (document : gmap string Element) (options : Options.t)
  (field : Selectors.t -> option string) : bool :=
  match Options.selectors options with
  | Some s => resolves document (field s)
  | None => false
  end.

Definition document_of_three : gmap string Element :=
  {[ "#map" := {| value := "" |};
     "#address" := {| value := "" |};
     "#country" := {| value := "GH" |} ]}.

Definition options_of_three : Options.t :=
  {| Options.selectors :=
       Some {| Selectors.map := Some "#map";
               Selectors.autocomplete := Some "#address";
               Selectors.radius := None;
               Selectors.country := Some "#country" |};
     Options.location := None; Options.zoom := None; Options.mapType := None |}.

Definition document_without_address : gmap string Element :=
  {[ "#map" := {| value := "" |}; "#country" := {| value := "GH" |} ]}.

Definition document_zero_radius : gmap string Element :=
  {[ "#map" := {| value := "" |}; "#radius" := {| value := "0" |} ]}.

Definition options_with_radius : Options.t :=
  {| Options.selectors :=
       Some {| Selectors.map := Some "#map"; Selectors.autocomplete := None;
               Selectors.radius := Some "#radius"; Selectors.country := None |};
     Options.location := None; Options.zoom := None; Options.mapType := None |}.

(** A number that is neither zero nor [NaN]. *)
Definition nonzero (x : float) : bool :=
  negb (PrimFloat.eqb x 0%float) && negb (is_nan x).

Definition with_location (l : option Coordinates) : MapOptions.t :=
  {| MapOptions._options :=
       {| Options.selectors := None; Options.location := l;
          Options.zoom := None; Options.mapType := None |} |}.

Definition page_radius (text : string) (scope : gmap string JS.value) : Page :=
  {| document := {[ "#map" := {| value := "" |}; "#radius" := {| value := text |} ]};
     globals := scope; geolocation := false; position_requested := false;
     place_changed := false; change := false |}.

Definition configured : Map.t :=
  with_isLoaded true
    (with_mapOptions (Some {| MapOptions._options := options_with_radius |})
       Map.constructor).

(** What holds of every state the page can bring about: a stored
    configuration has its [selectors]; once the radius listener is
    registered there are a configuration, a map and a circle, and the global
    scope has a [zoom]. *)
Definition consistent (s : State) : Prop :=
  (forall mo, _mapOptions (this s) = Some mo ->
              is_Some (Options.selectors (MapOptions._options mo)))
  /\ (change (page s) = true ->
      is_Some (_mapOptions (this s)) /\ is_Some (_gMap (this s))
      /\ is_Some (_circle (this s)) /\ is_Some (globals (page s) !! "zoom")).

(** A method keeps the state consistent, whether it returns or throws. *)
Definition keeps {A} (m : M A) : Prop :=
  forall s, consistent s -> consistent (snd (m s)).

Definition radius_page : State :=
  {| page := page_radius "25000" {[ "zoom" := VUndefined ]}; this := Map.constructor |}.

Definition radius_widget : State :=
  snd (create (AOptions options_with_radius) (snd (mapLoadedListener radius_page))).

(** The coordinate [getLocationError] falls back to. *)
Definition default_location : LatLng :=
  {| lat := 5.6044018; lng := -0.12188990000000001 |}.

Definition all_at (l : LatLng) (s : State) : Prop :=
  centers s = (Some (Some l), Some (Some l), Some (Some l)).

Definition loaded_page : State :=
  {| page := page_radius "5000" {[ "zoom" := VUndefined ]};
     this := with_isLoaded true Map.constructor |}.

Definition requesting_page : State :=
  {| page := {| document := document (page loaded_page);
                globals := globals (page loaded_page);
                geolocation := true; position_requested := false;
                place_changed := false; change := false |};
     this := with_isLoaded true Map.constructor |}.

Import Geocoder.

Definition berlin : Component :=
  {| long_name := "Berlin"; short_name := "BE";
     types := ["locality"; "administrative_area_level_1"; "political"] |}.

Definition result_berlin : Result :=
  {| address_components := [berlin]; formatted_address := "Berlin, Germany" |}.

Definition accra : LatLng := {| lat := 5.6044018; lng := -0.12188990000000001 |}.

Definition result_accra : Result :=
  {| address_components :=
       [ {| long_name := "Accra"; short_name := "Accra"; types := ["locality"; "political"] |};
         {| long_name := "Ghana"; short_name := "GH"; types := ["country"; "political"] |} ];
     formatted_address := "Accra, Ghana" |}.

(** ** For the rest of the module *)

(** The record the setter builds from a first result. *)
Definition built (r : Result) : AddressComponents :=
  with_formattedAddress (formatted_address r)
    (fold_left assign (rev (address_components r)) blank).

(** The answers of a service that is over its limit for a while. *)
Definition rate_limited (answers : list (list Result)) : list Response :=
  List.map (fun results => (results, OVER_QUERY_LIMIT)) answers.

(** The geocoder after one round of the retry: the promise of the call is
    left behind, its request has gone out, a second has passed. *)
Definition retried (options : Request) (this : Geocoder.t) : Geocoder.t :=
  {| _addressComponents := _addressComponents this;
     promises := promises this ++ [Pending];
     tasks := [];
     sent := sent this ++ [options];
     clock := clock this + 1000 |}.

(** A method keeps a property of the state, whether it returns or throws. *)
Definition preserves (P : State -> Prop) {A} (m : M A) : Prop :=
  forall s, P s -> P (snd (m s)).

(** The widget and what it has drawn go together: the map, the marker, the
    circle and the geocoder are there together or not at all, and then with
    a configuration, a current location and a global [zoom]; the three
    centers are the current location; listeners are registered only on a
    widget that is drawn. *)
Definition synchronized (s : State) : Prop :=
  (forall mo, _mapOptions (this s) = Some mo ->
              is_Some (Options.selectors (MapOptions._options mo)))
  /\ (is_Some (_gMap (this s)) ->
      is_Some (_mapOptions (this s))
      /\ is_Some (globals (page s) !! "zoom")
      /\ is_Some (_geocoder (this s))
      /\ is_Some (_currentLocation (this s))
      /\ centers s = (Some (_currentLocation (this s)),
                      Some (_currentLocation (this s)),
                      Some (_currentLocation (this s))))
  /\ (is_Some (_marker (this s)) \/ is_Some (_circle (this s))
      \/ is_Some (_geocoder (this s)) \/ place_changed (page s) = true
      \/ change (page s) = true ->
      is_Some (_gMap (this s))).

Definition address_options : Options.t :=
  {| Options.selectors :=
       Some {| Selectors.map := Some "#map"; Selectors.autocomplete := Some "#address";
               Selectors.radius := Some "#radius"; Selectors.country := None |};
     Options.location := Some {| latitude := 1; longitude := 1 |};
     Options.zoom := Some 3; Options.mapType := None |}.

Definition address_page : State :=
  {| page := {| document := {[ "#map" := {| value := "" |};
                               "#address" := {| value := "" |};
                               "#radius" := {| value := "25000" |} ]};
                globals := {[ "zoom" := VUndefined ]};
                geolocation := true; position_requested := false;
                place_changed := false; change := false |};
     this := with_isLoaded true Map.constructor |}.

Definition address_widget : State :=
  snd (create (AOptions address_options) address_page).

Definition widget_without_address : State :=
  {| page := {| document := document_without_address; globals := ∅;
                geolocation := false; position_requested := false;
                place_changed := false; change := false |};
     this := with_isLoaded true Map.constructor |}.

(** An address input is chosen from, on a widget that is drawn. *)
Definition place_accra : Place := {| geometry := Some accra |}.

Definition equator_options : Options.t :=
  {| Options.selectors := Options.selectors options_with_radius;
     Options.location := Some {| latitude := 0; longitude := 36.8 |};
     Options.zoom := None; Options.mapType := None |}.

(** A loaded widget in a page that declares no [zoom], without and with
    geolocation. *)
Definition ordinary_page : State :=
  {| page := page_radius "5000" ∅; this := with_isLoaded true Map.constructor |}.

Definition ordinary_requesting_page : State :=
  {| page := {| document := document (page ordinary_page); globals := ∅;
                geolocation := true; position_requested := false;
                place_changed := false; change := false |};
     this := with_isLoaded true Map.constructor |}.

(** * Properties *)

(** ** MapOptions *)

Section Construction.

Variable document : gmap string Element.
Variable options : Options.t.

Lemma constructor_map_missing :
  binding document options Selectors.map = false ->
  MapOptions.constructor document options = Throw (Error MapOptions.map_required).
Proof.
  unfold binding, MapOptions.constructor.
  destruct (Options.selectors options) as [s|]; [|reflexivity].
  intros ->. reflexivity.
Qed.

Lemma constructor_autocomplete_missing :
  binding document options Selectors.map = true ->
  binding document options Selectors.country = true ->
  binding document options Selectors.autocomplete = false ->
  MapOptions.constructor document options
  = Throw (Error MapOptions.autocomplete_required).
Proof.
  unfold binding, MapOptions.constructor.
  destruct (Options.selectors options) as [s|]; [|discriminate].
  intros -> -> ->. reflexivity.
Qed.

(** C4. The constructor of the configuration: with a map binding that is
    absent or does not resolve it throws; with a country binding that
    resolves and an autocomplete binding that does not it throws; with a
    map binding, a country binding and an autocomplete binding that all
    resolve it returns the configuration. *)
Theorem constructor_validates :
  (binding document options Selectors.map = false ->
   MapOptions.constructor document options = Throw (Error MapOptions.map_required))
  /\ (binding document options Selectors.country = true ->
      binding document options Selectors.autocomplete = false ->
      exists message, MapOptions.constructor document options = Throw (Error message))
  /\ (binding document options Selectors.map = true ->
      binding document options Selectors.country = true ->
      binding document options Selectors.autocomplete = true ->
      MapOptions.constructor document options
      = Normal {| MapOptions._options := options |}).
Proof.
  split; [exact constructor_map_missing|split].
  - intros Hc Ha. destruct (binding document options Selectors.map) eqn:Hm.
    + eexists. now apply constructor_autocomplete_missing.
    + eexists. now apply constructor_map_missing.
  - unfold binding, MapOptions.constructor.
    destruct (Options.selectors options) as [s|]; [|discriminate].
    intros -> -> ->. reflexivity.
Qed.

End Construction.

Lemma constructor_validates_witness :
  MapOptions.constructor ∅ options_of_three = Throw (Error MapOptions.map_required)
  /\ (exists message,
        MapOptions.constructor document_without_address options_of_three
        = Throw (Error message))
  /\ MapOptions.constructor document_of_three options_of_three
     = Normal {| MapOptions._options := options_of_three |}.
Proof.
  split; [|split].
  - apply (proj1 (constructor_validates ∅ options_of_three)).
    vm_compute. reflexivity.
  - apply (proj1 (proj2 (constructor_validates document_without_address options_of_three)));
      vm_compute; reflexivity.
  - apply (proj2 (proj2 (constructor_validates document_of_three options_of_three)));
      vm_compute; reflexivity.
Defined.

(** Once constructed, a configuration has its [selectors]. *)
Lemma constructor_selectors document options mo :
  MapOptions.constructor document options = Normal mo ->
  mo = {| MapOptions._options := options |}
  /\ is_Some (Options.selectors options)
  /\ binding document options Selectors.map = true.
Proof.
  unfold MapOptions.constructor, binding.
  destruct (Options.selectors options) as [s|]; [|discriminate].
  destruct (resolves document (Selectors.map s)); [|discriminate]. simpl.
  destruct (resolves document (Selectors.country s));
    [destruct (resolves document (Selectors.autocomplete s))|]; simpl;
    intros H; inversion H; eauto.
Qed.

(** With its [selectors], a configuration always has a radius. *)
Lemma radiusInMeters_total document mo :
  is_Some (Options.selectors (MapOptions._options mo)) ->
  exists r, MapOptions.radiusInMeters document mo = Normal r.
Proof.
  intros [s Hs].
  unfold MapOptions.radiusInMeters, MapOptions.radius, MapOptions.selector.
  rewrite Hs. simpl.
  destruct (resolves document (Selectors.radius s)) eqn:Hr; simpl; [|eauto].
  destruct (Selectors.radius s) as [sel|] eqn:Hsel; simpl; [|eauto].
  unfold resolves in Hr. apply andb_prop in Hr as [_ Hr].
  destruct (querySelector document sel); [eauto|discriminate].
Qed.

(** C9. With a radius binding that resolves and whose value parses to the
    integer 0, the radius is the default 5000. *)
Theorem radiusInMeters_zero_is_default document mo sel el :
  MapOptions.radius document mo = Normal (Some sel) ->
  querySelector document sel = Some el ->
  parseInt (value el) = Some 0 ->
  MapOptions.radiusInMeters document mo = Normal 5000.
Proof.
  intros Hr Hq Hp. unfold MapOptions.radiusInMeters.
  rewrite Hr. simpl. rewrite Hq, Hp. reflexivity.
Qed.

Lemma radiusInMeters_zero_is_default_witness :
  MapOptions.radiusInMeters document_zero_radius
    {| MapOptions._options := options_with_radius |} = Normal 5000.
Proof.
  apply (radiusInMeters_zero_is_default document_zero_radius
           {| MapOptions._options := options_with_radius |}
           "#radius" {| value := "0" |}); vm_compute; reflexivity.
Defined.

Lemma hasLocation_ToBoolean mo :
  ToBoolean (MapOptions.hasLocation mo)
  = match MapOptions.location mo with
    | Some l => nonzero (latitude l) && nonzero (longitude l)
    | None => false
    end.
Proof.
  unfold MapOptions.hasLocation, MapOptions.location.
  destruct (Options.location (MapOptions._options mo)) as [l|]; [|reflexivity].
  change (ToBoolean (VNumber (latitude l))) with (nonzero (latitude l)).
  destruct (nonzero (latitude l)) eqn:E; simpl; [reflexivity|exact E].
Qed.

(** C8. [hasLocation()] is falsy when the location is absent and when its
    latitude or its longitude is 0, as for (0, 0); it is truthy when both
    are numbers other than 0, as for (5.6, -0.12). *)
Theorem hasLocation_zero_is_absent mo :
  (MapOptions.location mo = None -> ToBoolean (MapOptions.hasLocation mo) = false)
  /\ (forall l, MapOptions.location mo = Some l ->
        PrimFloat.eqb (latitude l) 0 = true \/ PrimFloat.eqb (longitude l) 0 = true ->
        ToBoolean (MapOptions.hasLocation mo) = false)
  /\ (forall l, MapOptions.location mo = Some l ->
        nonzero (latitude l) = true -> nonzero (longitude l) = true ->
        ToBoolean (MapOptions.hasLocation mo) = true)
  /\ ToBoolean (MapOptions.hasLocation
                  (with_location (Some {| latitude := 0; longitude := 0 |}))) = false
  /\ ToBoolean (MapOptions.hasLocation
                  (with_location (Some {| latitude := 5.6; longitude := -0.12 |}))) = true.
Proof.
  rewrite hasLocation_ToBoolean.
  repeat split; try reflexivity.
  - intros ->. reflexivity.
  - intros l -> [H|H]; unfold nonzero; rewrite H; simpl;
      [reflexivity|apply andb_false_r].
  - intros l -> -> ->. reflexivity.
Qed.

Lemma hasLocation_zero_is_absent_witness :
  ToBoolean (MapOptions.hasLocation
               (with_location (Some {| latitude := 0; longitude := 7.5 |}))) = false
  /\ ToBoolean (MapOptions.hasLocation
                  (with_location (Some {| latitude := 5.6; longitude := -0.12 |}))) = true.
Proof.
  pose proof (hasLocation_zero_is_absent
                (with_location (Some {| latitude := 0; longitude := 7.5 |})))
    as (_ & Hzero & _).
  pose proof (hasLocation_zero_is_absent
                (with_location (Some {| latitude := 5.6; longitude := -0.12 |})))
    as (_ & _ & Hboth & _).
  split.
  - apply (Hzero {| latitude := 0; longitude := 7.5 |}); [reflexivity|left; reflexivity].
  - apply (Hboth {| latitude := 5.6; longitude := -0.12 |}); reflexivity.
Defined.

(** ** The zoom level *)

Ltac split_thresholds :=
  unfold zoom_level, kilometersToMeters;
  repeat match goal with
         | |- context [?a <=? ?b] => destruct (Z.leb_spec a b)
         end.

Lemma zoom_level_boundaries :
  zoom_level 10000 = 11 /\ zoom_level 20000 = 10 /\ zoom_level 40000 = 9
  /\ zoom_level 75000 = 8 /\ zoom_level 100000 = 7 /\ zoom_level 200000 = 6.
Proof. repeat split. Qed.

Lemma zoom_level_beyond r : 200000 < r -> zoom_level r = 4.
Proof.
  intros H. split_thresholds; lia.
Qed.

Lemma zoom_level_monotone r1 r2 : r1 <= r2 -> zoom_level r2 <= zoom_level r1.
Proof.
  intros H. split_thresholds; lia.
Qed.

(** Reading the radius leaves the state as it is. *)
Lemma radiusInMeters_reads s : snd (radiusInMeters s) = s.
Proof.
  unfold radiusInMeters, mapOptions, mbind, gets, deref, lift, ret, throw.
  destruct (_mapOptions (this s)); reflexivity.
Qed.

Lemma getZoom_bound s r :
  radiusInMeters s = (Normal r, s) ->
  is_Some (globals (page s) !! "zoom") ->
  getZoom s
  = (Normal (zoom_level r),
     on_page (with_globals (<["zoom" := VInteger (zoom_level r)]> (globals (page s)))) s).
Proof.
  intros Hr [v Hv]. unfold getZoom, mbind, assign_global, ret.
  rewrite Hr, Hv. reflexivity.
Qed.

(** C3. [getZoom()] assigns the level to [zoom], which nothing declares: on
    a page whose global scope has no [zoom] it throws a ReferenceError
    whatever the radius is, and returns none of the levels 11, 10, 9, 8, 7,
    6 and 4 of its thresholds. *)
Theorem getZoom_without_global_zoom s r :
  radiusInMeters s = (Normal r, s) ->
  globals (page s) !! "zoom" = None ->
  getZoom s = (Throw ReferenceError, s).
Proof.
  intros Hr Hv. unfold getZoom, mbind, assign_global.
  rewrite Hr, Hv. reflexivity.
Qed.

Lemma getZoom_without_global_zoom_witness :
  getZoom {| page := page_radius "10000" ∅; this := configured |}
  = (Throw ReferenceError, {| page := page_radius "10000" ∅; this := configured |}).
Proof.
  apply (getZoom_without_global_zoom
           {| page := page_radius "10000" ∅; this := configured |} 10000);
    vm_compute; reflexivity.
Defined.

(** ** updateLocation *)

(** C10. [updateLocation(null)] and [updateLocation(undefined)] throw a
    TypeError where the setter reads [location.latitude], and leave the
    whole state, so the centers of the map, the marker and the circle, as
    it was. *)
Theorem updateLocation_null_throws s :
  updateLocation LNull s = (Throw TypeError, s)
  /\ updateLocation LUndefined s = (Throw TypeError, s).
Proof. split; reflexivity. Qed.

(** C6. Calling [updateLocation] a second time with the same argument leaves
    the centers of the map, the marker and the circle where the first call
    put them. *)
Theorem updateLocation_idempotent location s :
  centers (snd (updateLocation location (snd (updateLocation location s))))
  = centers (snd (updateLocation location s)).
Proof.
  destruct s as [p [mo loaded g gc m k a c]].
  destruct location, g, m, k; reflexivity.
Qed.

(** The second call changes nothing at all. *)
Lemma updateLocation_twice location s :
  updateLocation location (snd (updateLocation location s))
  = updateLocation location s.
Proof.
  destruct s as [p [mo loaded g gc m k a c]].
  destruct location, g, m, k; reflexivity.
Qed.

(** With a map, a call with a coordinate puts all three centers on it. *)
Lemma updateLocation_centers c s g :
  _gMap (this s) = Some g ->
  let l := Some {| lat := latitude c; lng := longitude c |} in
  fst (updateLocation (LObject c) s) = Normal tt
  /\ centers (snd (updateLocation (LObject c) s))
     = (Some l, (fun _ => l) <$> _marker (this s), (fun _ => l) <$> _circle (this s))
  /\ _currentLocation (this (snd (updateLocation (LObject c) s))) = l.
Proof.
  destruct s as [p [mo loaded g' gc m k a cl]]. simpl. intros ->.
  destruct m, k; repeat split.
Qed.

(** ** The widget in the page *)

Ltac run_methods :=
  unfold create, position_reply, getUsersLocation, getLocationError, geoLocationSuccess,
    createMap, registerRadiusInputListener, setupAutocompleteListener, addCircle,
    radiusListener, updateCircleRadius, updateLocation, autocompleteHandler, service,
    mapLoadedListener, set_mapOptions, set_currentLocation,
    getZoom, assign_global, radiusInMeters, mapOptions,
    mbind, gets, modify, deref, lift, ret, throw, on_this, on_page.

Ltac split_match :=
  match goal with
  | |- context [match ?x with _ => _ end] =>
      lazymatch x with
      | context [match _ with _ => _ end] => fail
      | _ => destruct x eqn:?
      end
  end.

Ltac close_consistent I1 I2 :=
  split; simpl;
  [ let H := fresh "H" in intros ? H; inversion H; subst; eauto
  | let Hch := fresh "Hch" in
    intros Hch; try discriminate Hch;
    try (destruct (I2 Hch) as (? & ? & ? & ?));
    try match goal with
        | H : is_Some None |- _ => destruct (is_Some_None H)
        end;
    rewrite ?lookup_insert_eq; repeat split; eauto ].

Lemma keeps_mbind {A B} (m : M A) (k : A -> M B) :
  keeps m -> (forall a, keeps (k a)) -> keeps (mbind m k).
Proof.
  intros Hm Hk s Hs. unfold mbind.
  specialize (Hm s Hs). destruct (m s) as [[a|e] s']; [apply Hk|]; exact Hm.
Qed.

Lemma keeps_pure {A} (m : M A) : (forall s, snd (m s) = s) -> keeps m.
Proof. intros H s Hs. now rewrite H. Qed.

Ltac start_consistent s I1 I2 :=
  destruct s as [[?d ?gl ?geo ?pr ?pc ?ch] [?mo ?ld ?g ?gc ?m ?k ?a ?cl]];
  intros [I1 I2]; simpl in I1, I2; run_methods; simpl.

Lemma keeps_set_mapOptions options : keeps (set_mapOptions options).
Proof.
  intros s. destruct options as [|o|i]; [now intros ?| |now intros ?].
  start_consistent s I1 I2.
  destruct (MapOptions.constructor d o) as [mo'|e] eqn:Hc; simpl; [|split; assumption].
  apply constructor_selectors in Hc as (-> & Hsel & _).
  split; simpl.
  - intros ? [= <-]. exact Hsel.
  - intros Hch. destruct (I2 Hch) as (_ & ? & ? & ?). eauto.
Qed.

Lemma keeps_set_currentLocation location : keeps (set_currentLocation location).
Proof.
  intros s. destruct location; start_consistent s I1 I2; split; assumption.
Qed.

Lemma keeps_createMap : keeps createMap.
Proof.
  intros s. start_consistent s I1 I2.
  destruct mo as [mo|]; simpl; [|split; assumption].
  destruct (I1 mo eq_refl) as [sel Hsel].
  destruct (radiusInMeters_total d mo (I1 mo eq_refl)) as [r Hr].
  unfold MapOptions.map, MapOptions.autocomplete, MapOptions.radius, MapOptions.selector.
  repeat (simpl; rewrite ?Hsel, ?Hr; try split_match);
    close_consistent I1 I2.
Qed.

Lemma keeps_getLocationError : keeps getLocationError.
Proof.
  apply keeps_mbind; [apply keeps_set_currentLocation|intros _; apply keeps_createMap].
Qed.

Lemma keeps_geoLocationSuccess coords : keeps (geoLocationSuccess coords).
Proof.
  apply keeps_mbind; [apply keeps_set_currentLocation|intros _; apply keeps_createMap].
Qed.

Lemma keeps_position_requested v : keeps (modify (on_page (with_position_requested v))).
Proof. intros s. start_consistent s I1 I2. split; assumption. Qed.

Lemma keeps_getUsersLocation : keeps getUsersLocation.
Proof.
  apply keeps_mbind; [now apply keeps_pure|].
  intros [|]; [apply keeps_position_requested|apply keeps_getLocationError].
Qed.

Lemma keeps_create options : keeps (create options).
Proof.
  apply keeps_mbind; [apply keeps_set_mapOptions|intros _].
  apply keeps_mbind; [now apply keeps_pure|intros loaded].
  destruct (negb loaded); [now apply keeps_pure|].
  apply keeps_mbind; [now apply keeps_pure|intros [mo|]]; [|now apply keeps_pure].
  destruct (negb (ToBoolean (MapOptions.hasLocation mo))); [apply keeps_getUsersLocation|].
  apply keeps_mbind; [apply keeps_set_currentLocation|intros _; apply keeps_createMap].
Qed.

Lemma keeps_position_reply answer : keeps (position_reply answer).
Proof.
  apply keeps_mbind; [now apply keeps_pure|].
  intros [|]; [|now apply keeps_pure].
  apply keeps_mbind; [apply keeps_position_requested|intros _].
  destruct answer; [apply keeps_geoLocationSuccess|apply keeps_getLocationError].
Qed.

Lemma keeps_updateLocation location : keeps (updateLocation location).
Proof.
  intros s. start_consistent s I1 I2.
  destruct location, g, m, k; simpl; close_consistent I1 I2.
Qed.

Lemma keeps_autocompleteHandler place : keeps (autocompleteHandler place).
Proof.
  intros s. start_consistent s I1 I2.
  destruct (geometry place), g, m, k, gc; simpl; close_consistent I1 I2.
Qed.

Lemma keeps_radiusListener : keeps radiusListener.
Proof.
  intros s. start_consistent s I1 I2.
  repeat (simpl; try split_match); close_consistent I1 I2.
Qed.

Lemma keeps_service fuel replies : keeps (service fuel replies).
Proof.
  intros s. start_consistent s I1 I2. destruct gc; split; assumption.
Qed.

Lemma keeps_mapLoadedListener : keeps mapLoadedListener.
Proof. intros s. start_consistent s I1 I2. split; assumption. Qed.

(** Every state the page can bring about is consistent. *)
Lemma reachable_consistent s : reachable s -> consistent s.
Proof.
  induction 1 as [p Hpr Hpc Hch| | | | | | | |d s Hs IH].
  - split; simpl; [discriminate|]. rewrite Hch. discriminate.
  - now apply keeps_mapLoadedListener.
  - now apply keeps_create.
  - now apply keeps_updateLocation.
  - now apply keeps_position_reply.
  - now apply keeps_autocompleteHandler.
  - now apply keeps_radiusListener.
  - now apply keeps_service.
  - destruct IH as [I1 I2]. split; [exact I1|exact I2].
Qed.

(** C7. Whenever the radius listener runs, in any state the page can bring
    about in which it is registered, it reads the radius from the page as it
    is then, sets the radius of the circle to it and the zoom of the map to
    the level of that radius, and returns; the centers of the map, the
    marker and the circle, the current location and the geocoder, with its
    stored address and the requests it has sent, are as before. *)
Theorem radiusListener_effect s :
  reachable s ->
  change (page s) = true ->
  exists r g k,
    radiusInMeters s = (Normal r, s)
    /\ _gMap (this s) = Some g
    /\ _circle (this s) = Some k
    /\ fst (radiusListener s) = Normal tt
    /\ _circle (this (snd (radiusListener s))) = Some (setRadius r k)
    /\ _gMap (this (snd (radiusListener s))) = Some (setZoom (zoom_level r) g)
    /\ centers (snd (radiusListener s)) = centers s
    /\ _marker (this (snd (radiusListener s))) = _marker (this s)
    /\ _currentLocation (this (snd (radiusListener s))) = _currentLocation (this s)
    /\ _geocoder (this (snd (radiusListener s))) = _geocoder (this s)
    /\ document (page (snd (radiusListener s))) = document (page s).
Proof.
  intros Hs Hch. destruct (reachable_consistent s Hs) as [I1 I2].
  destruct (I2 Hch) as ([mo Hmo] & [g Hg] & [k Hk] & [v Hv]).
  destruct (radiusInMeters_total (document (page s)) mo (I1 mo Hmo)) as [r Hr].
  exists r, g, k.
  destruct s as [[d gl geo pr pc ch] [mo' ld g' gc m k' a cl]].
  simpl in *. subst. run_methods. simpl.
  rewrite Hr. simpl. rewrite Hv. simpl.
  repeat split.
Qed.

Lemma radiusListener_effect_witness :
  fst (radiusListener radius_widget) = Normal tt
  /\ circle_radius <$> _circle (this (snd (radiusListener radius_widget))) = Some 25000
  /\ map_zoom <$> _gMap (this (snd (radiusListener radius_widget))) = Some 9.
Proof.
  assert (Hs : reachable radius_widget).
  { apply reach_create, reach_loaded, reach_new; reflexivity. }
  assert (Hch : change (page radius_widget) = true) by (vm_compute; reflexivity).
  destruct (radiusListener_effect radius_widget Hs Hch)
    as (r & g & k & Hr & _ & _ & Hn & Hk & Hg & _).
  assert (E : r = 25000).
  { assert (H : fst (radiusInMeters radius_widget) = Normal r) by (rewrite Hr; reflexivity).
    vm_compute in H. now inversion H. }
  subst r. rewrite Hk, Hg. split; [exact Hn|split; reflexivity].
Defined.

(** With a configuration that has its [selectors], the error callback sets
    the current location to the default and, where [zoom] is bound, goes on
    to create the map, the marker and the circle there. *)
Lemma getLocationError_default s mo :
  _mapOptions (this s) = Some mo ->
  is_Some (Options.selectors (MapOptions._options mo)) ->
  _currentLocation (this (snd (getLocationError s))) = Some default_location
  /\ (is_Some (globals (page s) !! "zoom") ->
      fst (getLocationError s) = Normal tt
      /\ all_at default_location (snd (getLocationError s))).
Proof.
  intros Hmo [sel Hsel].
  destruct (radiusInMeters_total (document (page s)) mo (ex_intro _ sel Hsel)) as [r Hr].
  destruct s as [[d gl geo pr pc ch] [mo' ld g gc m k a cl]].
  simpl in *. subst. unfold all_at, centers. run_methods.
  unfold MapOptions.map, MapOptions.autocomplete, MapOptions.radius, MapOptions.selector.
  split; [|intros [v Hv]];
    repeat (repeat progress (simpl; rewrite ?Hsel, ?Hr, ?Hv); try split_match);
    try discriminate; repeat split.
  all: unfold resolves in *; simpl in *;
    match goal with
    | H : _ && _ = true |- _ => apply andb_prop in H as [_ H]
    end;
    repeat match goal with
           | H : ?x = None |- _ => rewrite H in *
           end; discriminate.
Qed.

(** X25. With a valid configuration that supplies no
    location, on a loaded widget: when the device has no geolocation,
    [create] sets the current location to latitude 5.6044018, longitude
    -0.12188990000000001; when the position request fails, the error callback
    does. In both cases, where the global scope has a [zoom], the call
    returns with the map, the marker and the circle centered there. *)
Theorem create_falls_back_to_default options s :
  MapOptions.constructor (document (page s)) options
  = Normal {| MapOptions._options := options |} ->
  _isLoaded (this s) = true ->
  Options.location options = None ->
  (geolocation (page s) = false ->
   _currentLocation (this (snd (create (AOptions options) s))) = Some default_location
   /\ (is_Some (globals (page s) !! "zoom") ->
       fst (create (AOptions options) s) = Normal tt
       /\ all_at default_location (snd (create (AOptions options) s))))
  /\ (geolocation (page s) = true ->
      let requested := snd (create (AOptions options) s) in
      fst (create (AOptions options) s) = Normal tt
      /\ position_requested (page requested) = true
      /\ _currentLocation (this (snd (position_reply None requested)))
         = Some default_location
      /\ (is_Some (globals (page s) !! "zoom") ->
          fst (position_reply None requested) = Normal tt
          /\ all_at default_location (snd (position_reply None requested)))).
Proof.
  intros Hc Hl Hloc.
  pose proof (constructor_selectors _ _ _ Hc) as (_ & Hsel & _).
  set (configured := {| page := page s;
                        this := with_mapOptions (Some {| MapOptions._options := options |})
                                  (this s) |}).
  assert (Hcreate : geolocation (page s) = false ->
                    create (AOptions options) s = getLocationError configured).
  { intros Hg. unfold create, set_mapOptions, getUsersLocation, mbind at 1 2 3 4 5 6 7.
    unfold gets, lift, modify, on_this. simpl. rewrite Hc. simpl. rewrite Hl. simpl.
    unfold MapOptions.hasLocation. simpl. rewrite Hloc. simpl. rewrite Hg. reflexivity. }
  assert (Hrequest : geolocation (page s) = true ->
                     create (AOptions options) s
                     = (Normal tt, on_page (with_position_requested true) configured)).
  { intros Hg. unfold create, set_mapOptions, getUsersLocation, mbind.
    unfold gets, lift, modify, on_this. simpl. rewrite Hc. simpl. rewrite Hl. simpl.
    unfold MapOptions.hasLocation. simpl. rewrite Hloc. simpl. rewrite Hg. reflexivity. }
  split; intros Hg.
  - rewrite (Hcreate Hg).
    apply (getLocationError_default configured {| MapOptions._options := options |});
      [reflexivity|exact Hsel].
  - cbv zeta. rewrite (Hrequest Hg). cbn [fst snd].
    split; [reflexivity|]. split; [reflexivity|].
    exact (getLocationError_default
             (on_page (with_position_requested false)
                (on_page (with_position_requested true) configured))
             {| MapOptions._options := options |} eq_refl Hsel).
Qed.

Lemma create_falls_back_to_default_witness :
  (fst (create (AOptions options_with_radius) loaded_page) = Normal tt
   /\ all_at default_location (snd (create (AOptions options_with_radius) loaded_page)))
  /\ (fst (position_reply None
             (snd (create (AOptions options_with_radius) requesting_page))) = Normal tt
      /\ all_at default_location
           (snd (position_reply None
                   (snd (create (AOptions options_with_radius) requesting_page))))).
Proof.
  split.
  - destruct (create_falls_back_to_default options_with_radius loaded_page)
      as [Hunavailable _]; try (vm_compute; reflexivity).
    destruct (Hunavailable eq_refl) as [_ Hmap].
    apply Hmap. exists VUndefined. vm_compute. reflexivity.
  - destruct (create_falls_back_to_default options_with_radius requesting_page)
      as [_ Hfails]; try (vm_compute; reflexivity).
    destruct (Hfails eq_refl) as (_ & _ & _ & Hmap).
    apply Hmap. exists VUndefined. vm_compute. reflexivity.
Defined.

(** ** Geocoder: the address components *)

Lemma assign_branch a component :
  assign a component
  = match branch component with
    | Some s => fill s (names component) a
    | None => a
    end.
Proof.
  unfold assign, branch, slots. simpl.
  repeat match goal with
         | |- context [has_type ?tag component] => destruct (has_type tag component)
         end; reflexivity.
Qed.

Lemma slot_fill s s' n a :
  slot s (fill s' n a) = if slot_eqb s s' then n else slot s a.
Proof. destruct s, s'; reflexivity. Qed.

Lemma slot_assign s a component :
  slot s (assign a component)
  = if takes s component then names component else slot s a.
Proof.
  rewrite assign_branch. unfold takes.
  destruct (branch component) as [s'|]; [apply slot_fill|reflexivity].
Qed.

(** The loop runs from the last component to the first, so what the first
    component of a slot writes is what stays. *)
Lemma slot_loop s components a :
  slot s (fold_left assign (rev components) a)
  = match find (takes s) components with
    | Some component => names component
    | None => slot s a
    end.
Proof.
  induction components as [|component components IH]; [reflexivity|].
  simpl. rewrite fold_left_app. simpl. rewrite slot_assign.
  destruct (takes s component); [reflexivity|exact IH].
Qed.

Lemma slot_with_formattedAddress s text a :
  slot s (with_formattedAddress text a) = slot s a.
Proof. destruct s; reflexivity. Qed.

(** C2, as the setter has it. From a result list with a first result the
    setter stores a record that depends on that result alone, whatever was
    stored before: each slot has the names of the first component, in list
    order, that takes the slot's branch of the chain, that is, whose type
    tags include the slot's and none of those the chain tests before it;
    a slot no component takes is null; the formatted address is the
    result's. *)
Theorem set_addressComponents_slots r rest :
  exists a,
    (forall previous, set_addressComponents (r :: rest) previous = Normal (store a previous))
    /\ (forall s, slot s a = names_of (find (takes s) (address_components r)))
    /\ formattedAddress a = formatted_address r.
Proof.
  eexists. split; [intros previous; reflexivity|]. split; [|reflexivity].
  intros s. rewrite slot_with_formattedAddress, slot_loop.
  destruct (find (takes s) (address_components r)); [reflexivity|].
  destruct s; reflexivity.
Qed.

(** Where no component carries the type tags of two slots, the reading of
    the specification and the setter agree. *)
Lemma takes_single_category components :
  (forall component s s', In component components ->
     has_type (category s) component = true ->
     has_type (category s') component = true -> s = s') ->
  forall s, names_of (find (takes s) components) = spec_slot s components.
Proof.
  intros Hone s. unfold spec_slot.
  induction components as [|component components IH]; [reflexivity|].
  simpl.
  assert (E : takes s component = has_type (category s) component).
  { unfold takes, branch.
    destruct (find _ slots) as [s'|] eqn:Hf.
    - apply find_some in Hf as [_ Hs'].
      destruct (has_type (category s) component) eqn:Hs.
      + rewrite (Hone component s s'); [destruct s'; reflexivity|now left|exact Hs|exact Hs'].
      + destruct (slot_eqb s s') eqn:Heq; [|reflexivity].
        assert (s = s') by (destruct s, s'; (reflexivity || discriminate)).
        congruence.
    - destruct (has_type (category s) component) eqn:Hs; [|reflexivity].
      pose proof (find_none _ _ Hf s) as Hn. simpl in Hn.
      rewrite Hn in Hs; [discriminate|]. destruct s; simpl; tauto. }
  rewrite E. destruct (has_type (category s) component); [reflexivity|].
  apply IH. intros c s1 s2 Hc. apply Hone. now right.
Qed.

(** C2, as the specification has it, fails for a component that carries the
    type tags of two slots: it takes the branch of the first tag the chain
    tests, and the other slot stays null. *)
Lemma first_tagged_component_fails :
  exists a,
    set_addressComponents [result_berlin] Geocoder.constructor
    = Normal (store a Geocoder.constructor)
    /\ slot City a = names berlin
    /\ slot StateOrProvince a = null
    /\ spec_slot StateOrProvince (address_components result_berlin) = names berlin
    /\ slot StateOrProvince a
       <> spec_slot StateOrProvince (address_components result_berlin).
Proof.
  eexists. split; [reflexivity|]. repeat split. vm_compute. discriminate.
Qed.

(** ** Geocoder: the retry *)

Lemma orphan_geocode p options this :
  orphan p this -> orphan p (snd (geocode options this)).
Proof.
  intros [Hp Hk]. split; simpl.
  - rewrite lookup_app_l; [exact Hp|]. eapply lookup_lt_Some, Hp.
  - apply Forall_app. split; [exact Hk|].
    constructor; [|constructor].
    apply lookup_lt_Some in Hp. lia.
Qed.

Lemma orphan_settle p q s this :
  q <> p -> orphan p this -> orphan p (settle q s this).
Proof.
  intros Hq [Hp Hk]. split; simpl; [|exact Hk].
  destruct (promises this !! q) as [[| |]|]; try exact Hp.
  rewrite list_lookup_insert_ne; [exact Hp|exact Hq].
Qed.

Lemma orphan_callback p q options reply this :
  q <> p -> orphan p this -> orphan p (callback q options reply this).
Proof.
  intros Hq H. destruct reply as [results status]. unfold callback.
  destruct (status_eqb status OK && (0 <? Z.of_nat (length results))).
  - destruct results as [|r rest]; simpl; [exact H|].
    apply orphan_settle; [exact Hq|]. destruct H as [Hp Hk]. split; assumption.
  - destruct (status_eqb status OVER_QUERY_LIMIT).
    + destruct H as [Hp Hk]. split; simpl; [exact Hp|].
      apply Forall_app. split; [exact Hk|]. repeat constructor.
    + apply orphan_settle; assumption.
Qed.

Lemma orphan_pop p this : orphan p this -> orphan p (pop this).
Proof.
  intros [Hp Hk]. split; simpl; [exact Hp|].
  destruct (tasks this); [constructor|]. now inversion Hk.
Qed.

(** Whatever the service answers and however long the loop runs, an orphan
    stays pending. *)
Lemma orphan_run p fuel : forall replies this,
  orphan p this -> orphan p (run fuel replies this).
Proof.
  induction fuel as [|fuel IH]; intros replies this H; [exact H|].
  cbn [run]. destruct (tasks this) as [|[q options|delay options] rest] eqn:Hk.
  - exact H.
  - destruct replies as [|reply replies]; [exact H|].
    apply IH, orphan_callback; [|apply orphan_pop, H].
    destruct H as [_ Hall]. rewrite Hk in Hall. now inversion Hall.
  - apply IH, orphan_geocode.
    destruct (orphan_pop p this H) as [Hp Hall]. split; assumption.
Qed.

(** The first answer of the service, when it is the rate limit, leaves a
    timer of 1000 ms that carries the options of the call. *)
Lemma rate_limited_first_step options results replies fuel this :
  tasks this = [] ->
  run (S fuel) ((results, OVER_QUERY_LIMIT) :: replies) (snd (geocode options this))
  = run fuel replies
      (enqueue (Timer 1000 options) (pop (snd (geocode options this)))).
Proof.
  intros Hk. cbn [run].
  replace (tasks (snd (geocode options this)))
    with [Reply (length (promises this)) options]
    by (simpl; rewrite Hk; reflexivity).
  reflexivity.
Qed.

(** C1. When the service answers a request with the rate-limit status, the
    promise that [geocode] returned for it is never settled: the timer calls
    [geocode] again, with the same options after 1000 ms, but the promise of
    that call is another one, and nothing resolves or rejects the first,
    whatever the service answers afterwards. *)
Theorem geocode_rate_limited_stays_pending options results replies fuel this :
  tasks this = [] ->
  promises (run fuel ((results, OVER_QUERY_LIMIT) :: replies)
              (snd (geocode options this)))
    !! fst (geocode options this)
  = Some Pending.
Proof.
  intros Hk.
  assert (Hnew : (promises this ++ [Pending])%list !! length (promises this) = Some Pending).
  { apply list_lookup_middle. reflexivity. }
  destruct fuel as [|fuel]; [exact Hnew|].
  rewrite rate_limited_first_step by exact Hk.
  apply orphan_run. split; [exact Hnew|].
  simpl. rewrite Hk. repeat constructor.
Qed.

Lemma geocode_rate_limited_stays_pending_witness :
  promises (run 3 [([], OVER_QUERY_LIMIT); ([result_accra], OK)]
              (snd (geocode {| location := accra |} Geocoder.constructor)))
    !! fst (geocode {| location := accra |} Geocoder.constructor)
  = Some Pending.
Proof.
  apply (geocode_rate_limited_stays_pending
           {| location := accra |} [] [([result_accra], OK)] 3 Geocoder.constructor).
  reflexivity.
Defined.

(** The whole run for one rate-limit answer followed by a result: the request
    went out twice with the same options, one second passed, the components
    of the second answer are stored and fulfil the promise of the second
    call; the first promise is pending and no callback is due. *)
Lemma geocode_retry_trace :
  let request := {| location := accra |} in
  let final := run 3 [([], OVER_QUERY_LIMIT); ([result_accra], OK)]
                 (snd (geocode request Geocoder.constructor)) in
  exists a,
    addressComponents final = Some a
    /\ slot City a = {| longName := Some "Accra"; shortName := Some "Accra" |}
    /\ slot Country a = {| longName := Some "Ghana"; shortName := Some "GH" |}
    /\ promises final = [Pending; Fulfilled a]
    /\ sent final = [request; request]
    /\ clock final = 1000
    /\ tasks final = [].
Proof. simpl. eexists. repeat split. Qed.

(** A status that is neither OK nor the rate limit rejects the promise with
    that status, and nothing is sent again. *)
Lemma geocode_rejects options results status this :
  tasks this = [] ->
  status <> OK -> status <> OVER_QUERY_LIMIT ->
  let final := run 1 [(results, status)] (snd (geocode options this)) in
  promises final !! fst (geocode options this) = Some (Rejected status)
  /\ sent final = (sent this ++ [options])%list
  /\ tasks final = [].
Proof.
  intros Hk Hok Hlimit. simpl. rewrite Hk. simpl.
  assert (E1 : status_eqb status OK = false) by (destruct status; (reflexivity || contradiction)).
  assert (E2 : status_eqb status OVER_QUERY_LIMIT = false) by (destruct status; (reflexivity || contradiction)).
  rewrite E1, E2. simpl.
  rewrite list_lookup_middle by reflexivity.
  split; [|split; reflexivity].
  apply list_lookup_insert_eq. rewrite length_app. simpl. lia.
Qed.

(** ** Geocoder: the other outcomes *)

Lemma built_slots r s :
  slot s (built r) = names_of (find (takes s) (address_components r)).
Proof.
  unfold built. rewrite slot_with_formattedAddress, slot_loop.
  destruct (find (takes s) (address_components r)); [reflexivity|].
  destruct s; reflexivity.
Qed.

Lemma set_built r rest this :
  set_addressComponents (r :: rest) this = Normal (store (built r) this).
Proof. reflexivity. Qed.

Lemma ok_first_step options r rest this :
  tasks this = [] ->
  run 1 [(r :: rest, OK)] (snd (geocode options this))
  = {| _addressComponents := Some (built r);
       promises := promises this ++ [Fulfilled (built r)];
       tasks := [];
       sent := sent this ++ [options];
       clock := clock this |}.
Proof.
  intros Hk. pose proof (set_built r rest) as Hset.
  cbn [run].
  replace (tasks (snd (geocode options this)))
    with [Reply (length (promises this)) options]
    by (simpl; rewrite Hk; reflexivity).
  unfold callback. cbn [status_eqb andb length Z.of_nat Z.ltb Z.compare].
  rewrite Hset. unfold store, settle, addressComponents. simpl.
  rewrite list_lookup_middle by reflexivity.
  rewrite Hk. f_equal.
  replace (length (promises this)) with (length (promises this) + 0)%nat by lia.
  rewrite insert_app_r. reflexivity.
Qed.

(** X1. A successful answer with at least one result fulfils the promise of
    the call with the components of the first result, which are also what
    the geocoder stores; the request went out once and nothing is due. *)
Theorem geocode_ok_fulfils options r rest this :
  tasks this = [] ->
  exists a,
    (forall s, slot s a = names_of (find (takes s) (address_components r)))
    /\ formattedAddress a = formatted_address r
    /\ run 1 [(r :: rest, OK)] (snd (geocode options this))
       = {| _addressComponents := Some a;
            promises := promises this ++ [Fulfilled a];
            tasks := [];
            sent := sent this ++ [options];
            clock := clock this |}.
Proof.
  intros Hk. exists (built r).
  split; [apply built_slots|]. split; [reflexivity|].
  now apply ok_first_step.
Qed.

Lemma geocode_ok_fulfils_witness :
  exists a,
    slot Country a = {| longName := Some "Ghana"; shortName := Some "GH" |}
    /\ promises (run 1 [([result_accra], OK)]
                   (snd (geocode {| location := accra |} Geocoder.constructor)))
       = [Fulfilled a].
Proof.
  destruct (geocode_ok_fulfils {| location := accra |} result_accra []
              Geocoder.constructor eq_refl) as (a & Hslots & _ & Hrun).
  exists a. split.
  - rewrite Hslots. reflexivity.
  - rewrite Hrun. reflexivity.
Defined.

(** X2. An answer that is neither a result nor the rate limit, that is, a
    status other than OK and OVER_QUERY_LIMIT, or the status OK with an
    empty result list, rejects the promise with the status as it came (OK
    in the second case); the stored components are left as they were, the
    request is not sent again and no timer is set. *)
Theorem geocode_failure_rejects options results status this :
  tasks this = [] ->
  status <> OVER_QUERY_LIMIT ->
  status <> OK \/ results = [] ->
  run 1 [(results, status)] (snd (geocode options this))
  = {| _addressComponents := _addressComponents this;
       promises := promises this ++ [Rejected status];
       tasks := [];
       sent := sent this ++ [options];
       clock := clock this |}.
Proof.
  intros Hk Hlimit Hfail. cbn [run].
  replace (tasks (snd (geocode options this)))
    with [Reply (length (promises this)) options]
    by (simpl; rewrite Hk; reflexivity).
  unfold callback.
  assert (E1 : status_eqb status OK && (0 <? Z.of_nat (length results)) = false).
  { destruct Hfail as [Hok| ->]; [|apply andb_false_r].
    destruct status; (reflexivity || contradiction). }
  assert (E2 : status_eqb status OVER_QUERY_LIMIT = false)
    by (destruct status; (reflexivity || contradiction)).
  rewrite E1, E2. unfold settle. simpl.
  rewrite list_lookup_middle by reflexivity.
  rewrite Hk. f_equal.
  replace (length (promises this)) with (length (promises this) + 0)%nat by lia.
  rewrite insert_app_r. reflexivity.
Qed.

Lemma geocode_failure_rejects_witness :
  promises (run 1 [([], OK)] (snd (geocode {| location := accra |} Geocoder.constructor)))
  = [Rejected OK]
  /\ promises (run 1 [([], ZERO_RESULTS)]
                 (snd (geocode {| location := accra |} Geocoder.constructor)))
     = [Rejected ZERO_RESULTS].
Proof.
  split.
  - rewrite (geocode_failure_rejects {| location := accra |} [] OK Geocoder.constructor);
      [reflexivity|reflexivity|discriminate|right; reflexivity].
  - rewrite (geocode_failure_rejects {| location := accra |} [] ZERO_RESULTS
               Geocoder.constructor);
      [reflexivity|reflexivity|discriminate|left; discriminate].
Defined.

(** One round of the retry: the answer, then the timer. *)
Lemma rate_limited_round options results replies fuel this :
  tasks this = [] ->
  run (S (S fuel)) ((results, OVER_QUERY_LIMIT) :: replies) (snd (geocode options this))
  = run fuel replies (snd (geocode options (retried options this))).
Proof.
  intros Hk. rewrite rate_limited_first_step by exact Hk.
  cbn [run].
  replace (tasks (enqueue (Timer 1000 options) (pop (snd (geocode options this)))))
    with [Timer 1000 options]
    by (simpl; rewrite Hk; reflexivity).
  f_equal. unfold geocode, retried, advance, pop, enqueue. simpl.
  rewrite Hk. reflexivity.
Qed.

(** X3. While the service is over its limit the request goes out again and
    again: after [k] such answers it has been sent [k + 1] times, each time
    with the options of the call, [k] seconds have passed, and there are
    [k + 1] promises, all pending, of which only the last still has a
    callback due; the stored components are untouched. *)
Theorem rate_limit_retries options answers : forall this,
  tasks this = [] ->
  run (2 * length answers) (rate_limited answers) (snd (geocode options this))
  = {| _addressComponents := _addressComponents this;
       promises := promises this ++ repeat Pending (S (length answers));
       tasks := [Reply (length (promises this) + length answers) options];
       sent := sent this ++ repeat options (S (length answers));
       clock := clock this + 1000 * Z.of_nat (length answers) |}.
Proof.
  induction answers as [|results answers IH]; intros this Hk.
  - simpl. rewrite Hk, Nat.add_0_r, Z.add_0_r. reflexivity.
  - replace (2 * length (results :: answers))%nat
      with (S (S (2 * length answers))) by (simpl; lia).
    cbn [rate_limited List.map]. rewrite rate_limited_round by exact Hk.
    change (List.map _ answers) with (rate_limited answers).
    rewrite IH by reflexivity.
    unfold retried. cbn [_addressComponents promises sent clock length].
    rewrite <- !app_assoc, length_app. cbn [length app repeat].
    f_equal; [do 2 f_equal|]; lia.
Qed.

Lemma rate_limit_retries_witness :
  sent (run 6 (rate_limited [[]; []; []])
          (snd (geocode {| location := accra |} Geocoder.constructor)))
  = repeat {| location := accra |} 4
  /\ clock (run 6 (rate_limited [[]; []; []])
              (snd (geocode {| location := accra |} Geocoder.constructor)))
     = 3000.
Proof.
  pose proof (rate_limit_retries {| location := accra |} [[]; []; []]
                Geocoder.constructor eq_refl) as H.
  change (2 * length [[]; []; []])%nat with 6%nat in H.
  rewrite H. split; reflexivity.
Defined.

(** ** The widget and what it draws *)

Lemma preserves_mbind P {A B} (m : M A) (k : A -> M B) :
  preserves P m -> (forall a, preserves P (k a)) -> preserves P (mbind m k).
Proof.
  intros Hm Hk s Hs. unfold mbind.
  specialize (Hm s Hs). destruct (m s) as [[a|e] s']; [apply Hk|]; exact Hm.
Qed.

Lemma preserves_pure P {A} (m : M A) : (forall s, snd (m s) = s) -> preserves P m.
Proof. intros H s Hs. now rewrite H. Qed.

Ltac start_synchronized s I1 I2 I3 :=
  destruct s as [[?d ?gl ?geo ?pr ?pc ?ch] [?mo ?ld ?g ?gc ?m ?k ?a ?cl]];
  intros (I1 & I2 & I3); unfold centers in I2; simpl in I1, I2, I3;
  run_methods; simpl.

Ltac close_synchronized I1 I2 I3 :=
  unfold synchronized, centers; simpl;
  split; [|split];
  [ let H := fresh "H" in intros ? H; inversion H; subst; eauto
  | let Hg := fresh "Hg" in
    intros Hg;
    try (destruct I2 as (? & ? & ? & ? & ?); [solve [eauto]|]);
    try match goal with
        | H : is_Some None |- _ => destruct (is_Some_None H)
        end;
    rewrite ?lookup_insert_eq; repeat split; eauto;
    try (simpl in *; congruence)
  | let Hl := fresh "Hl" in
    intros Hl; eauto; try (apply I3; tauto) ].

Lemma synchronized_relocate location :
  preserves synchronized (mbind (set_currentLocation location) (fun _ => createMap)).
Proof.
  intros s. start_synchronized s I1 I2 I3.
  destruct mo as [mo|].
  - destruct (I1 mo eq_refl) as [sel Hsel].
    destruct (radiusInMeters_total d mo (I1 mo eq_refl)) as [r Hr].
    unfold MapOptions.map, MapOptions.autocomplete, MapOptions.radius, MapOptions.selector.
    destruct location;
      repeat (repeat progress (simpl; rewrite ?Hsel, ?Hr); try split_match);
      close_synchronized I1 I2 I3.
  - destruct location; simpl; close_synchronized I1 I2 I3.
Qed.

Lemma synchronized_set_mapOptions options : preserves synchronized (set_mapOptions options).
Proof.
  intros s. destruct options as [|o|i]; [now intros ?| |now intros ?].
  start_synchronized s I1 I2 I3.
  destruct (MapOptions.constructor d o) as [mo'|e] eqn:Hc; simpl;
    [|close_synchronized I1 I2 I3].
  apply constructor_selectors in Hc as (-> & Hsel & _).
  close_synchronized I1 I2 I3.
Qed.

Lemma synchronized_position_requested v :
  preserves synchronized (modify (on_page (with_position_requested v))).
Proof. intros s. start_synchronized s I1 I2 I3. close_synchronized I1 I2 I3. Qed.

Lemma synchronized_getUsersLocation : preserves synchronized getUsersLocation.
Proof.
  apply preserves_mbind; [now apply preserves_pure|].
  intros [|]; [apply synchronized_position_requested|apply synchronized_relocate].
Qed.

Lemma synchronized_create options : preserves synchronized (create options).
Proof.
  apply preserves_mbind; [apply synchronized_set_mapOptions|intros _].
  apply preserves_mbind; [now apply preserves_pure|intros loaded].
  destruct (negb loaded); [now apply preserves_pure|].
  apply preserves_mbind; [now apply preserves_pure|intros [mo|]]; [|now apply preserves_pure].
  destruct (negb (ToBoolean (MapOptions.hasLocation mo)));
    [apply synchronized_getUsersLocation|apply synchronized_relocate].
Qed.

Lemma synchronized_position_reply answer : preserves synchronized (position_reply answer).
Proof.
  apply preserves_mbind; [now apply preserves_pure|].
  intros [|]; [|now apply preserves_pure].
  apply preserves_mbind; [apply synchronized_position_requested|intros _].
  destruct answer; apply synchronized_relocate.
Qed.

Lemma synchronized_updateLocation location : preserves synchronized (updateLocation location).
Proof.
  intros s. start_synchronized s I1 I2 I3.
  destruct location, g, m, k; simpl; close_synchronized I1 I2 I3.
Qed.

Lemma synchronized_autocompleteHandler place :
  preserves synchronized (autocompleteHandler place).
Proof.
  intros s. start_synchronized s I1 I2 I3.
  destruct (geometry place), g, m, k, gc; simpl; close_synchronized I1 I2 I3.
Qed.

Lemma synchronized_radiusListener : preserves synchronized radiusListener.
Proof.
  intros s. start_synchronized s I1 I2 I3.
  repeat (simpl; try split_match); close_synchronized I1 I2 I3.
Qed.

Lemma synchronized_service fuel replies : preserves synchronized (service fuel replies).
Proof.
  intros s. start_synchronized s I1 I2 I3.
  destruct gc; simpl; close_synchronized I1 I2 I3.
Qed.

Lemma synchronized_mapLoadedListener : preserves synchronized mapLoadedListener.
Proof. intros s. start_synchronized s I1 I2 I3. close_synchronized I1 I2 I3. Qed.

Lemma reachable_synchronized s : reachable s -> synchronized s.
Proof.
  induction 1 as [p Hpr Hpc Hch| | | | | | | |d s Hs IH].
  - unfold synchronized, centers. simpl. rewrite Hpc, Hch.
    split; [discriminate|]. split.
    + intros H. destruct (is_Some_None H).
    + intros [H|[H|[H|[H|H]]]]; try discriminate H; destruct (is_Some_None H).
  - now apply synchronized_mapLoadedListener.
  - now apply synchronized_create.
  - now apply synchronized_updateLocation.
  - now apply synchronized_position_reply.
  - now apply synchronized_autocompleteHandler.
  - now apply synchronized_radiusListener.
  - now apply synchronized_service.
  - destruct s as [[d0 gl geo pr pc ch] [mo ld g gc m k a cl]].
    destruct IH as (I1 & I2 & I3). unfold centers in I2. simpl in I1, I2, I3.
    unfold on_page. simpl. close_synchronized I1 I2 I3.
Qed.

(** ** Map: what [create] does *)

Lemma zoom_level_range r : 4 <= zoom_level r <= 11.
Proof. split_thresholds; lia. Qed.

(** With a configuration that has its [selectors] and a global [zoom],
    [createMap] returns, and what it leaves is all built from the current
    location, the configuration and the page as they are: the map at the
    zoom level of the radius, never at the [zoom] of the options; the marker
    and a circle of that radius; a fresh geocoder; the place listener where
    the autocomplete binding resolves and the radius listener where the
    radius binding does. *)
Lemma createMap_effect s mo sel r :
  _mapOptions (this s) = Some mo ->
  Options.selectors (MapOptions._options mo) = Some sel ->
  MapOptions.radiusInMeters (document (page s)) mo = Normal r ->
  is_Some (globals (page s) !! "zoom") ->
  fst (createMap s) = Normal tt
  /\ _gMap (this (snd (createMap s)))
     = Some {| map_container :=
                 querySelector (document (page s)) (default "undefined" (Selectors.map sel));
               map_center := _currentLocation (this s);
               map_zoom := zoom_level r;
               mapTypeId := MapOptions.mapType mo;
               map_draggable := false |}
  /\ _marker (this (snd (createMap s)))
     = Some {| position := _currentLocation (this s); marker_draggable := false |}
  /\ _circle (this (snd (createMap s)))
     = Some {| circle_center := _currentLocation (this s); circle_radius := r |}
  /\ _geocoder (this (snd (createMap s))) = Some Geocoder.constructor
  /\ _currentLocation (this (snd (createMap s))) = _currentLocation (this s)
  /\ _mapOptions (this (snd (createMap s))) = Some mo
  /\ place_changed (page (snd (createMap s)))
     = place_changed (page s) || resolves (document (page s)) (Selectors.autocomplete sel)
  /\ change (page (snd (createMap s)))
     = change (page s) || resolves (document (page s)) (Selectors.radius sel)
  /\ position_requested (page (snd (createMap s))) = position_requested (page s)
  /\ document (page (snd (createMap s))) = document (page s)
  /\ globals (page (snd (createMap s)))
     = <["zoom" := VInteger (zoom_level r)]> (globals (page s)).
Proof.
  intros Hmo Hsel Hr [v Hv].
  pose proof (zoom_level_range r) as Hrange.
  assert (Hz : (zoom_level r =? 0) = false) by (apply Z.eqb_neq; lia).
  destruct s as [[d gl geo pr pc ch] [mo' ld g gc m k a cl]].
  simpl in *. subst. run_methods.
  unfold MapOptions.map, MapOptions.autocomplete, MapOptions.radius, MapOptions.selector.
  repeat (repeat progress (simpl; rewrite ?Hsel, ?Hr, ?Hv, ?Hz); try split_match);
    try discriminate; repeat split;
    rewrite ?orb_true_r, ?orb_false_r; try reflexivity.
  all: unfold resolves, truthy_string in *; simpl in *;
    repeat match goal with
           | H : _ && _ = true |- _ => apply andb_prop in H as [? ?]
           end;
    exfalso;
    repeat (match goal with
            | H : context [match ?x with _ => _ end] |- _ => destruct x eqn:?
            end; simpl in *; try discriminate);
    repeat match goal with
           | H : negb ?b = true |- _ => destruct b eqn:?; simpl in H; try discriminate
           end;
    congruence.
Qed.

(** What [create] does up to the point where it has a location. *)
Lemma create_configures options s :
  MapOptions.constructor (document (page s)) options
  = Normal {| MapOptions._options := options |} ->
  _isLoaded (this s) = true ->
  create (AOptions options) s
  = (if negb (ToBoolean (MapOptions.hasLocation {| MapOptions._options := options |}))
     then getUsersLocation
     else mbind (set_currentLocation
                   match Options.location options with
                   | Some c => LObject c
                   | None => LNull
                   end) (fun _ => createMap))
      (on_this (with_mapOptions (Some {| MapOptions._options := options |})) s).
Proof.
  intros Hc Hl.
  unfold create, set_mapOptions, mbind at 1 2 3 4 5.
  unfold gets, lift, modify. simpl. rewrite Hc. simpl. rewrite Hl. simpl.
  reflexivity.
Qed.

(** X9. [create] with a location in the options, both coordinates other than 0:
    on a loaded widget, with a valid configuration and a global [zoom], it
    returns with the map, the marker and the circle at that location, the
    map at the zoom level of the radius read from the page whatever [zoom]
    the options carry, the circle with that radius, and without address
    components; the device is not asked for its position. *)
Theorem create_with_location options c s :
  MapOptions.constructor (document (page s)) options
  = Normal {| MapOptions._options := options |} ->
  _isLoaded (this s) = true ->
  Options.location options = Some c ->
  nonzero (latitude c) = true -> nonzero (longitude c) = true ->
  is_Some (globals (page s) !! "zoom") ->
  exists r,
    MapOptions.radiusInMeters (document (page s)) {| MapOptions._options := options |}
    = Normal r
    /\ fst (create (AOptions options) s) = Normal tt
    /\ all_at {| lat := latitude c; lng := longitude c |} (snd (create (AOptions options) s))
    /\ _currentLocation (this (snd (create (AOptions options) s)))
       = Some {| lat := latitude c; lng := longitude c |}
    /\ map_zoom <$> _gMap (this (snd (create (AOptions options) s))) = Some (zoom_level r)
    /\ circle_radius <$> _circle (this (snd (create (AOptions options) s))) = Some r
    /\ Getters.addressComponents (this (snd (create (AOptions options) s))) = None
    /\ position_requested (page (snd (create (AOptions options) s)))
       = position_requested (page s).
Proof.
  intros Hc Hl Hloc Hlat Hlng Hv.
  pose proof (constructor_selectors _ _ _ Hc) as (_ & [sel Hsel] & _).
  destruct (radiusInMeters_total (document (page s)) {| MapOptions._options := options |}
              (ex_intro _ sel Hsel)) as [r Hr].
  exists r. split; [exact Hr|].
  rewrite (create_configures options s Hc Hl).
  assert (Hhas : ToBoolean (MapOptions.hasLocation {| MapOptions._options := options |}) = true).
  { rewrite hasLocation_ToBoolean. unfold MapOptions.location. simpl.
    rewrite Hloc, Hlat, Hlng. reflexivity. }
  rewrite Hhas, Hloc. cbn [negb].
  set (s1 := on_this (with_currentLocation (Some {| lat := latitude c; lng := longitude c |}))
               (on_this (with_mapOptions (Some {| MapOptions._options := options |})) s)).
  change (mbind (set_currentLocation (LObject c)) (fun _ => createMap) _)
    with (createMap s1).
  destruct (createMap_effect s1 {| MapOptions._options := options |} sel r
              eq_refl Hsel Hr Hv)
    as (Hn & Hg & Hm & Hk & Hgc & Hcl & _ & _ & _ & Hpr & _).
  unfold all_at, centers, Getters.addressComponents.
  rewrite Hn, Hg, Hm, Hk, Hgc, Hcl, Hpr. repeat split.
Qed.

Lemma create_with_location_witness :
  fst (create (AOptions address_options) address_page) = Normal tt
  /\ all_at {| lat := 1; lng := 1 |} address_widget
  /\ map_zoom <$> _gMap (this address_widget) = Some 9
  /\ circle_radius <$> _circle (this address_widget) = Some 25000
  /\ position_requested (page address_widget) = false.
Proof.
  destruct (create_with_location address_options {| latitude := 1; longitude := 1 |}
              address_page)
    as (r & Hr & Hn & Hat & _ & Hz & Hk & _ & Hpr);
    try (vm_compute; reflexivity).
  { exists VUndefined. vm_compute. reflexivity. }
  assert (E : r = 25000) by (vm_compute in Hr; now inversion Hr).
  subst r. unfold address_widget. rewrite Hz, Hk, Hpr.
  split; [exact Hn|]. split; [exact Hat|]. repeat split.
Defined.

(** X10. [createMap] registers the place listener where the autocomplete binding
    resolves in the page as it is then, and the radius listener where the
    radius binding does; a listener that is registered stays. *)
Theorem createMap_listeners s mo sel r :
  _mapOptions (this s) = Some mo ->
  Options.selectors (MapOptions._options mo) = Some sel ->
  MapOptions.radiusInMeters (document (page s)) mo = Normal r ->
  is_Some (globals (page s) !! "zoom") ->
  place_changed (page (snd (createMap s)))
  = place_changed (page s) || resolves (document (page s)) (Selectors.autocomplete sel)
  /\ change (page (snd (createMap s)))
     = change (page s) || resolves (document (page s)) (Selectors.radius sel).
Proof.
  intros Hmo Hsel Hr Hv.
  destruct (createMap_effect s mo sel r Hmo Hsel Hr Hv)
    as (_ & _ & _ & _ & _ & _ & _ & Hpc & Hch & _).
  split; assumption.
Qed.

Lemma createMap_listeners_witness :
  place_changed (page (snd (createMap (on_this (with_mapOptions
      (Some {| MapOptions._options := options_with_radius |})) loaded_page)))) = false
  /\ change (page (snd (createMap (on_this (with_mapOptions
      (Some {| MapOptions._options := options_with_radius |})) loaded_page)))) = true.
Proof.
  destruct (createMap_listeners
              (on_this (with_mapOptions
                 (Some {| MapOptions._options := options_with_radius |})) loaded_page)
              {| MapOptions._options := options_with_radius |}
              {| Selectors.map := Some "#map"; Selectors.autocomplete := None;
                 Selectors.radius := Some "#radius"; Selectors.country := None |}
              5000 eq_refl eq_refl)
    as [Hpc Hch]; try (vm_compute; reflexivity).
  { exists VUndefined. vm_compute. reflexivity. }
  rewrite Hpc, Hch. split; vm_compute; reflexivity.
Defined.

(** ** Map: what [create] refuses *)

(** X12. A configuration the constructor rejects, or no configuration at all:
    [create] throws what the constructor throws (a TypeError for
    [undefined]) and the widget is as it was. *)
Theorem create_invalid_configuration options e s :
  MapOptions.constructor (document (page s)) options = Throw e ->
  create (AOptions options) s = (Throw e, s)
  /\ create AUndefined s = (Throw TypeError, s).
Proof.
  intros Hc. split; [|reflexivity].
  unfold create, set_mapOptions, mbind, gets, lift. rewrite Hc. reflexivity.
Qed.

Lemma create_invalid_configuration_witness :
  create (AOptions options_of_three) widget_without_address
  = (Throw (Error MapOptions.autocomplete_required), widget_without_address).
Proof.
  apply (proj1 (create_invalid_configuration options_of_three
                  (Error MapOptions.autocomplete_required) widget_without_address
                  eq_refl)).
Defined.

(** X13. Before the library is loaded [create] throws, but only after the setter
    has run: the new configuration has replaced the stored one. Nothing
    else has changed. *)
Theorem create_before_loaded options s :
  MapOptions.constructor (document (page s)) options
  = Normal {| MapOptions._options := options |} ->
  _isLoaded (this s) = false ->
  create (AOptions options) s
  = (Throw (Error "Map library not loaded!"),
     on_this (with_mapOptions (Some {| MapOptions._options := options |})) s).
Proof.
  intros Hc Hl.
  unfold create, set_mapOptions, mbind, gets, lift, modify. rewrite Hc. simpl.
  rewrite Hl. reflexivity.
Qed.

Lemma create_before_loaded_witness :
  fst (create (AOptions options_with_radius) radius_page)
  = Throw (Error "Map library not loaded!")
  /\ _mapOptions (this (snd (create (AOptions options_with_radius) radius_page)))
     = Some {| MapOptions._options := options_with_radius |}.
Proof.
  rewrite (create_before_loaded options_with_radius radius_page);
    [split; reflexivity|vm_compute; reflexivity|reflexivity].
Defined.

(** X14. An instance of [MapOptions] passed to [create] is never stored: the
    setter skips it. On a loaded widget without a configuration the call
    throws "Map options not set!" and changes nothing; on one that has a
    configuration the call goes on with the stored one. *)
Theorem create_ignores_instance instance s :
  _mapOptions (this (snd (set_mapOptions (AMapOptions instance) s))) = _mapOptions (this s)
  /\ (_isLoaded (this s) = true -> _mapOptions (this s) = None ->
      create (AMapOptions instance) s = (Throw (Error "Map options not set!"), s))
  /\ (forall options, _isLoaded (this s) = true ->
      _mapOptions (this s) = Some {| MapOptions._options := options |} ->
      MapOptions.constructor (document (page s)) options
      = Normal {| MapOptions._options := options |} ->
      create (AMapOptions instance) s = create (AOptions options) s).
Proof.
  split; [reflexivity|]. split.
  - intros Hl Hmo. unfold create, set_mapOptions, mbind, gets, ret.
    cbv beta iota. rewrite Hl. cbn [negb]. cbv beta iota. rewrite Hmo. reflexivity.
  - intros options Hl Hmo Hc.
    assert (E : create (AMapOptions instance) s
                = (if negb (ToBoolean (MapOptions.hasLocation
                                         {| MapOptions._options := options |}))
                   then getUsersLocation
                   else mbind (set_currentLocation
                                 match Options.location options with
                                 | Some c => LObject c
                                 | None => LNull
                                 end) (fun _ => createMap)) s).
    { unfold create, set_mapOptions, mbind at 1 2 3, gets, ret.
      cbv beta iota. rewrite Hl. cbn [negb]. cbv beta iota. rewrite Hmo. reflexivity. }
    rewrite E, (create_configures options s Hc Hl).
    replace (on_this (with_mapOptions (Some {| MapOptions._options := options |})) s)
      with s
      by (destruct s as [p [mo ld g gc m k a cl]]; simpl in Hmo; subst; reflexivity).
    reflexivity.
Qed.

Lemma create_ignores_instance_witness :
  create (AMapOptions {| MapOptions._options := options_with_radius |}) loaded_page
  = (Throw (Error "Map options not set!"), loaded_page).
Proof.
  apply (proj1 (proj2 (create_ignores_instance
                         {| MapOptions._options := options_with_radius |} loaded_page)));
    reflexivity.
Defined.

(** ** Map: moving the location *)

(** X15. [updateLocation] touches the current location and the three centers,
    and nothing else: the page, the configuration, the loaded flag, the
    geocoder with its address components, the zoom and the type of the map
    and the radius of the circle are as before, for every argument. *)
Theorem updateLocation_frame location s :
  let s' := snd (updateLocation location s) in
  page s' = page s
  /\ _mapOptions (this s') = _mapOptions (this s)
  /\ _isLoaded (this s') = _isLoaded (this s)
  /\ _geocoder (this s') = _geocoder (this s)
  /\ _autocomplete (this s') = _autocomplete (this s)
  /\ map_zoom <$> _gMap (this s') = map_zoom <$> _gMap (this s)
  /\ mapTypeId <$> _gMap (this s') = mapTypeId <$> _gMap (this s)
  /\ circle_radius <$> _circle (this s') = circle_radius <$> _circle (this s).
Proof.
  destruct s as [p [mo ld g gc m k a cl]].
  destruct location, g, m, k; repeat split.
Qed.

(** ** Map: the loaded flag *)

Ltac keep_flag s H :=
  destruct s as [[?d ?gl ?geo ?pr ?pc ?ch] [?mo ?ld ?g ?gc ?m ?k ?a ?cl]];
  intros H; simpl in H; run_methods;
  repeat (simpl; try split_match); exact H.

Lemma loaded_set_mapOptions b options :
  preserves (fun s => _isLoaded (this s) = b) (set_mapOptions options).
Proof. intros s. destruct options; keep_flag s H. Qed.

Lemma loaded_relocate b location :
  preserves (fun s => _isLoaded (this s) = b)
    (mbind (set_currentLocation location) (fun _ => createMap)).
Proof. intros s. destruct location; keep_flag s H. Qed.

Lemma loaded_position_requested b v :
  preserves (fun s => _isLoaded (this s) = b)
    (modify (on_page (with_position_requested v))).
Proof. intros s. keep_flag s H. Qed.

Lemma loaded_create b options :
  preserves (fun s => _isLoaded (this s) = b) (create options).
Proof.
  apply preserves_mbind; [apply loaded_set_mapOptions|intros _].
  apply preserves_mbind; [now apply preserves_pure|intros loaded].
  destruct (negb loaded); [now apply preserves_pure|].
  apply preserves_mbind; [now apply preserves_pure|intros [mo|]]; [|now apply preserves_pure].
  destruct (negb (ToBoolean (MapOptions.hasLocation mo))); [|apply loaded_relocate].
  apply preserves_mbind; [now apply preserves_pure|].
  intros [|]; [apply loaded_position_requested|apply loaded_relocate].
Qed.

Lemma loaded_position_reply b answer :
  preserves (fun s => _isLoaded (this s) = b) (position_reply answer).
Proof.
  apply preserves_mbind; [now apply preserves_pure|].
  intros [|]; [|now apply preserves_pure].
  apply preserves_mbind; [apply loaded_position_requested|intros _].
  destruct answer; apply loaded_relocate.
Qed.

(** X17. Only [mapLoadedListener] writes the loaded flag, and it sets it: no
    method, callback or listener of the widget changes it, whether it
    returns or throws, so a widget that is loaded stays loaded. *)
Theorem loaded_flag s :
  _isLoaded (this (snd (mapLoadedListener s))) = true
  /\ (forall options, _isLoaded (this (snd (create options s))) = _isLoaded (this s))
  /\ (forall answer, _isLoaded (this (snd (position_reply answer s))) = _isLoaded (this s))
  /\ (forall location,
        _isLoaded (this (snd (updateLocation location s))) = _isLoaded (this s))
  /\ (forall place,
        _isLoaded (this (snd (autocompleteHandler place s))) = _isLoaded (this s))
  /\ _isLoaded (this (snd (radiusListener s))) = _isLoaded (this s)
  /\ (forall fuel replies,
        _isLoaded (this (snd (service fuel replies s))) = _isLoaded (this s)).
Proof.
  split; [reflexivity|].
  split; [intros options; now apply loaded_create|].
  split; [intros answer; now apply loaded_position_reply|].
  split; [|split; [|split]].
  - intros location. destruct s as [p [mo ld g gc m k a cl]].
    destruct location, g, m, k; reflexivity.
  - intros place. destruct s as [p [mo ld g gc m k a cl]].
    unfold autocompleteHandler. destruct (geometry place), g, m, k, gc; reflexivity.
  - assert (H : preserves (fun s' => _isLoaded (this s') = _isLoaded (this s)) radiusListener).
    { intros s0. generalize (_isLoaded (this s)). intros b. keep_flag s0 H. }
    now apply H.
  - intros fuel replies. destruct s as [p [mo ld g gc m k a cl]].
    unfold service, mbind, gets. simpl. destruct gc; reflexivity.
Qed.

(** ** Map: the zoom level where [zoom] is bound *)

(** X18. In a page whose global scope has a [zoom], [getZoom] returns the level
    of the radius it reads: 11 up to 10 km, 10 up to 20 km, 9 up to 40 km,
    8 up to 75 km, 7 up to 100 km, 6 up to 200 km and 4 beyond, each bound
    included; it leaves that level in the global [zoom] and changes nothing
    else. *)
Theorem getZoom_levels s r :
  radiusInMeters s = (Normal r, s) ->
  is_Some (globals (page s) !! "zoom") ->
  exists z,
    getZoom s = (Normal z, on_page (with_globals (<["zoom" := VInteger z]> (globals (page s)))) s)
    /\ (r <= 10000 -> z = 11)
    /\ (10000 < r <= 20000 -> z = 10)
    /\ (20000 < r <= 40000 -> z = 9)
    /\ (40000 < r <= 75000 -> z = 8)
    /\ (75000 < r <= 100000 -> z = 7)
    /\ (100000 < r <= 200000 -> z = 6)
    /\ (200000 < r -> z = 4).
Proof.
  intros Hr [v Hv]. exists (zoom_level r). split.
  - unfold getZoom, mbind, assign_global, ret. rewrite Hr, Hv. reflexivity.
  - repeat split; intros H; split_thresholds; lia.
Qed.

Lemma getZoom_levels_witness :
  fst (getZoom {| page := page_radius "75000" {[ "zoom" := VUndefined ]}; this := configured |})
  = Normal 8.
Proof.
  destruct (getZoom_levels
              {| page := page_radius "75000" {[ "zoom" := VUndefined ]}; this := configured |}
              75000)
    as (z & Hrun & _ & _ & _ & H8 & _); [vm_compute; reflexivity| |].
  { exists VUndefined. vm_compute. reflexivity. }
  rewrite Hrun. simpl. f_equal. apply H8. lia.
Defined.

(** X19. A larger radius never gives a higher level. *)
Theorem getZoom_non_increasing s1 s2 r1 r2 z1 z2 :
  radiusInMeters s1 = (Normal r1, s1) ->
  radiusInMeters s2 = (Normal r2, s2) ->
  fst (getZoom s1) = Normal z1 ->
  fst (getZoom s2) = Normal z2 ->
  r1 <= r2 ->
  z2 <= z1.
Proof.
  intros Hr1 Hr2 Hz1 Hz2 Hle.
  unfold getZoom, mbind, assign_global, ret in Hz1, Hz2.
  rewrite Hr1 in Hz1. rewrite Hr2 in Hz2.
  destruct (globals (page s1) !! "zoom"); [|discriminate Hz1].
  destruct (globals (page s2) !! "zoom"); [|discriminate Hz2].
  simpl in Hz1, Hz2. inversion Hz1. inversion Hz2. subst.
  split_thresholds; lia.
Qed.

Lemma getZoom_non_increasing_witness : 8 <= 11.
Proof.
  apply (getZoom_non_increasing
           {| page := page_radius "5000" {[ "zoom" := VUndefined ]}; this := configured |}
           {| page := page_radius "75000" {[ "zoom" := VUndefined ]}; this := configured |}
           5000 75000 11 8);
    try (vm_compute; reflexivity).
  lia.
Defined.

(** ** Map: what holds of every state *)

(** X20. The widget is drawn as a whole or not at all: in every state the page
    can bring about, the map, the marker, the circle and the geocoder exist
    together, and then with a configuration and a current location; a
    listener is registered only on a widget that is drawn. *)
Theorem drawn_together s :
  reachable s ->
  (is_Some (_gMap (this s)) <-> is_Some (_marker (this s)))
  /\ (is_Some (_gMap (this s)) <-> is_Some (_circle (this s)))
  /\ (is_Some (_gMap (this s)) <-> is_Some (_geocoder (this s)))
  /\ (is_Some (_gMap (this s)) ->
      is_Some (_mapOptions (this s)) /\ is_Some (_currentLocation (this s)))
  /\ (place_changed (page s) = true \/ change (page s) = true ->
      is_Some (_gMap (this s))).
Proof.
  intros Hs. destruct (reachable_synchronized s Hs) as (_ & I2 & I3).
  unfold centers in I2.
  assert (Hall : is_Some (_gMap (this s)) ->
                 is_Some (_marker (this s)) /\ is_Some (_circle (this s))
                 /\ is_Some (_geocoder (this s))).
  { intros Hg. destruct (I2 Hg) as (_ & _ & Hgc & _ & Hc).
    destruct (_marker (this s)), (_circle (this s)); try discriminate Hc.
    repeat split; eauto. }
  split; [split; [intros Hg; apply (Hall Hg)|intros H; apply I3; tauto]|].
  split; [split; [intros Hg; apply (Hall Hg)|intros H; apply I3; tauto]|].
  split; [split; [intros Hg; apply (Hall Hg)|intros H; apply I3; tauto]|].
  split; [|intros H; apply I3; tauto].
  intros Hg. destruct (I2 Hg) as (Hmo & _ & _ & Hcl & _). split; assumption.
Qed.

Lemma address_widget_reachable : reachable address_widget.
Proof.
  apply reach_create.
  change address_page
    with (snd (mapLoadedListener {| page := page address_page; this := Map.constructor |})).
  apply reach_loaded, reach_new; reflexivity.
Qed.

Lemma drawn_together_witness :
  is_Some (_gMap (this address_widget))
  /\ is_Some (_marker (this address_widget))
  /\ is_Some (_geocoder (this address_widget)).
Proof.
  destruct (drawn_together address_widget address_widget_reachable)
    as (Hm & _ & Hg & _ & Hl).
  assert (H : is_Some (_gMap (this address_widget))).
  { apply Hl. left. vm_compute. reflexivity. }
  split; [exact H|]. split; [apply Hm, H|apply Hg, H].
Defined.

(** X22. The place listener, in any state the page can bring about in which it
    is registered. For a place with a location it returns, with the map, the
    marker and the circle centered on that location, which is the current
    location; one request for that location has gone to the geocoding
    service, with a promise of its own; the page, the zoom and the radius
    are as before. For a place without geometry it does nothing. *)
Theorem autocompleteHandler_effect place s :
  reachable s ->
  place_changed (page s) = true ->
  (geometry place = None -> autocompleteHandler place s = (Normal tt, s))
  /\ (forall l, geometry place = Some l ->
      exists gc,
        _geocoder (this s) = Some gc
        /\ fst (autocompleteHandler place s) = Normal tt
        /\ centers (snd (autocompleteHandler place s))
           = (Some (Some l), Some (Some l), Some (Some l))
        /\ _currentLocation (this (snd (autocompleteHandler place s))) = Some l
        /\ _geocoder (this (snd (autocompleteHandler place s)))
           = Some (snd (Geocoder.geocode {| Geocoder.location := l |} gc))
        /\ page (snd (autocompleteHandler place s)) = page s
        /\ map_zoom <$> _gMap (this (snd (autocompleteHandler place s)))
           = map_zoom <$> _gMap (this s)
        /\ circle_radius <$> _circle (this (snd (autocompleteHandler place s)))
           = circle_radius <$> _circle (this s)).
Proof.
  intros Hs Hpc. split.
  - intros Hn. unfold autocompleteHandler. rewrite Hn. reflexivity.
  - intros l Hl. destruct (reachable_synchronized s Hs) as (_ & I2 & I3).
    assert (Hg : is_Some (_gMap (this s))) by (apply I3; tauto).
    destruct (I2 Hg) as (_ & _ & [gc Hgc] & _ & Hc). unfold centers in Hc.
    destruct s as [p [mo ld g gc' m k a cl]]. simpl in *. subst.
    exists gc. unfold autocompleteHandler, centers. rewrite Hl.
    destruct g, m, k; try discriminate Hc; try (destruct (is_Some_None Hg)).
    repeat split.
Qed.

Lemma autocompleteHandler_effect_witness :
  centers (snd (autocompleteHandler place_accra address_widget))
  = (Some (Some accra), Some (Some accra), Some (Some accra))
  /\ (sent <$> _geocoder (this (snd (autocompleteHandler place_accra address_widget))))
     = Some [{| Geocoder.location := accra |}].
Proof.
  destruct (autocompleteHandler_effect place_accra address_widget
              address_widget_reachable) as [_ H]; [vm_compute; reflexivity|].
  destruct (H accra eq_refl) as (gc & Hgc & _ & Hc & _ & Hsent & _).
  split; [exact Hc|].
  rewrite Hsent.
  assert (E : gc = Geocoder.constructor) by (vm_compute in Hgc; now inversion Hgc).
  subst gc. reflexivity.
Defined.

(** However often the service is over its limit first, the components of
    the first successful answer are stored. *)
Lemma retries_then_ok options r rest answers : forall this,
  tasks this = [] ->
  _addressComponents
    (run (2 * length answers + 1) (rate_limited answers ++ [(r :: rest, OK)])
       (snd (geocode options this)))
  = Some (built r).
Proof.
  induction answers as [|results answers IH]; intros this Hk.
  - change (run _ _ _) with (run 1 [(r :: rest, OK)] (snd (geocode options this))).
    rewrite ok_first_step by exact Hk. reflexivity.
  - replace (2 * length (results :: answers) + 1)%nat
      with (S (S (2 * length answers + 1))) by (simpl; lia).
    cbn [rate_limited List.map app]. rewrite rate_limited_round by exact Hk.
    apply IH. reflexivity.
Qed.

(** X23. From the choice of a place to the address: on a drawn widget whose
    geocoder has nothing due, after the place listener has run and the
    service has answered, any number of times with the rate limit and then
    with a result, the [addressComponents] of the widget are those of the
    first result of that answer, and the widget still shows the place. *)
Theorem address_arrives_after_retries place l r rest answers gc s :
  reachable s ->
  place_changed (page s) = true ->
  geometry place = Some l ->
  _geocoder (this s) = Some gc ->
  tasks gc = [] ->
  let chosen := snd (autocompleteHandler place s) in
  let answered :=
    snd (service (2 * length answers + 1)
           (rate_limited answers ++ [(r :: rest, OK)]) chosen) in
  exists a,
    Getters.addressComponents (this answered) = Some a
    /\ (forall slot_, slot slot_ a = names_of (find (takes slot_) (address_components r)))
    /\ formattedAddress a = formatted_address r
    /\ centers answered = (Some (Some l), Some (Some l), Some (Some l))
    /\ _currentLocation (this answered) = Some l.
Proof.
  intros Hs Hpc Hl Hgc Hk.
  destruct (reachable_synchronized s Hs) as (_ & I2 & I3).
  assert (Hg : is_Some (_gMap (this s))) by (apply I3; tauto).
  destruct (I2 Hg) as (_ & _ & _ & _ & Hc). unfold centers in Hc.
  exists (built r).
  split; [|split; [apply built_slots|split; [reflexivity|]]].
  - destruct s as [p [mo ld g gc' m k a cl]]. simpl in *. subst.
    unfold autocompleteHandler, service, Getters.addressComponents. rewrite Hl.
    destruct g, m, k; try discriminate Hc; try (destruct (is_Some_None Hg)).
    simpl. apply retries_then_ok. exact Hk.
  - destruct s as [p [mo ld g gc' m k a cl]]. simpl in *. subst.
    unfold autocompleteHandler, service, centers. rewrite Hl.
    destruct g, m, k; try discriminate Hc; try (destruct (is_Some_None Hg)).
    split; reflexivity.
Qed.

Lemma address_arrives_after_retries_witness :
  exists a,
    Getters.addressComponents
      (this (snd (service 5 (rate_limited [[]; []] ++ [([result_accra], OK)])
                    (snd (autocompleteHandler place_accra address_widget)))))
    = Some a
    /\ slot Country a = {| longName := Some "Ghana"; shortName := Some "GH" |}.
Proof.
  destruct (address_arrives_after_retries place_accra accra result_accra [] [[]; []]
              Geocoder.constructor address_widget address_widget_reachable)
    as (a & Ha & Hslots & _); try (vm_compute; reflexivity).
  exists a. split; [exact Ha|]. rewrite Hslots. reflexivity.
Defined.

(** X24. A location with a coordinate 0 counts as no location: [create] asks the
    device, as it does without a location, and the configured coordinate is
    not used; the current location is as before when the call returns. *)
Theorem create_zero_coordinate options c s :
  MapOptions.constructor (document (page s)) options
  = Normal {| MapOptions._options := options |} ->
  _isLoaded (this s) = true ->
  Options.location options = Some c ->
  PrimFloat.eqb (latitude c) 0 = true \/ PrimFloat.eqb (longitude c) 0 = true ->
  create (AOptions options) s
  = getUsersLocation
      (on_this (with_mapOptions (Some {| MapOptions._options := options |})) s)
  /\ (geolocation (page s) = true ->
      fst (create (AOptions options) s) = Normal tt
      /\ position_requested (page (snd (create (AOptions options) s))) = true
      /\ _currentLocation (this (snd (create (AOptions options) s)))
         = _currentLocation (this s)
      /\ _gMap (this (snd (create (AOptions options) s))) = _gMap (this s)).
Proof.
  intros Hc Hl Hloc Hzero.
  assert (E : create (AOptions options) s
              = getUsersLocation
                  (on_this (with_mapOptions (Some {| MapOptions._options := options |})) s)).
  { rewrite (create_configures options s Hc Hl).
    rewrite hasLocation_ToBoolean. unfold MapOptions.location. simpl. rewrite Hloc.
    replace (nonzero (latitude c) && nonzero (longitude c)) with false; [reflexivity|].
    unfold nonzero. destruct Hzero as [H|H]; rewrite H; simpl;
      [reflexivity|symmetry; apply andb_false_r]. }
  split; [exact E|]. intros Hg. rewrite E.
  unfold getUsersLocation, mbind, gets, modify. simpl. rewrite Hg.
  repeat split.
Qed.

Lemma create_zero_coordinate_witness :
  position_requested (page (snd (create (AOptions equator_options) requesting_page))) = true
  /\ _currentLocation (this (snd (create (AOptions equator_options) requesting_page))) = None.
Proof.
  destruct (create_zero_coordinate equator_options {| latitude := 0; longitude := 36.8 |}
              requesting_page) as [_ H]; try (vm_compute; reflexivity).
  { left. vm_compute. reflexivity. }
  destruct (H eq_refl) as (_ & Hpr & Hcl & _).
  split; [exact Hpr|exact Hcl].
Defined.

(** ** MapOptions, completed *)



(** ** Geocoder: one component, one slot *)

(** X6. A component is written to at most one slot: the first, in the order of
    the chain, whose type tag it carries. Every other slot and the formatted
    address are left as they were; a component with none of the seven tags
    leaves the record as it was. *)
Theorem assign_one_slot a component :
  (branch component = None -> assign a component = a)
  /\ (forall s, branch component = Some s ->
        slot s (assign a component) = names component
        /\ has_type (category s) component = true
        /\ (forall s', s' <> s -> slot s' (assign a component) = slot s' a)
        /\ formattedAddress (assign a component) = formattedAddress a).
Proof.
  rewrite assign_branch. split.
  - intros ->. reflexivity.
  - intros s Hs. rewrite Hs. split; [|split; [|split]].
    + rewrite slot_fill. destruct s; reflexivity.
    + unfold branch in Hs. apply find_some in Hs. apply Hs.
    + intros s' Hne. rewrite slot_fill.
      destruct (slot_eqb s' s) eqn:E; [|reflexivity].
      destruct s', s; (discriminate E || contradiction).
    + destruct s; reflexivity.
Qed.

Lemma assign_one_slot_witness :
  slot City (assign blank berlin) = names berlin
  /\ slot StateOrProvince (assign blank berlin) = null.
Proof.
  destruct (assign_one_slot blank berlin) as [_ H].
  destruct (H City eq_refl) as (Hcity & _ & Hothers & _).
  split; [exact Hcity|]. rewrite Hothers; [reflexivity|discriminate].
Defined.

(** ** Map: [create] in a page without a global [zoom] *)

Lemma getLocationError_without_zoom s mo :
  _mapOptions (this s) = Some mo ->
  is_Some (Options.selectors (MapOptions._options mo)) ->
  globals (page s) !! "zoom" = None ->
  getLocationError s
  = (Throw ReferenceError, on_this (with_currentLocation (Some default_location)) s).
Proof.
  intros Hmo [sel Hsel] Hv.
  destruct (radiusInMeters_total (document (page s)) mo (ex_intro _ sel Hsel)) as [r Hr].
  destruct s as [[d gl geo pr pc ch] [mo' ld g gc m k a cl]].
  simpl in *. subst. run_methods.
  unfold MapOptions.map, MapOptions.selector.
  simpl. rewrite Hsel. simpl. rewrite Hr. simpl. rewrite Hv. reflexivity.
Qed.

(** C5. With a valid configuration that supplies no location, on a loaded
    widget in a page whose global scope has no [zoom]: when the device has
    no geolocation, [create] sets the current location to the default and
    then throws a ReferenceError in [createMap], where [getZoom] assigns the
    undeclared [zoom]; when the position request fails, [create] has only
    made the request and the error callback throws in the same way. No map,
    marker or circle is created, where the widget should be drawn at the
    default coordinate. *)
Theorem create_default_without_global_zoom options s :
  MapOptions.constructor (document (page s)) options
  = Normal {| MapOptions._options := options |} ->
  _isLoaded (this s) = true ->
  Options.location options = None ->
  globals (page s) !! "zoom" = None ->
  let stored :=
    on_this (with_mapOptions (Some {| MapOptions._options := options |})) s in
  (geolocation (page s) = false ->
   create (AOptions options) s
   = (Throw ReferenceError, on_this (with_currentLocation (Some default_location)) stored)
   /\ centers (snd (create (AOptions options) s)) = centers s)
  /\ (geolocation (page s) = true ->
      create (AOptions options) s
      = (Normal tt, on_page (with_position_requested true) stored)
      /\ getLocationError (snd (create (AOptions options) s))
         = (Throw ReferenceError,
            on_this (with_currentLocation (Some default_location))
              (on_page (with_position_requested true) stored))
      /\ centers (snd (getLocationError (snd (create (AOptions options) s)))) = centers s).
Proof.
  intros Hc Hl Hloc Hv stored.
  pose proof (constructor_selectors _ _ _ Hc) as (_ & Hsel & _).
  assert (E : create (AOptions options) s = getUsersLocation stored).
  { rewrite (create_configures options s Hc Hl).
    unfold MapOptions.hasLocation. simpl. rewrite Hloc. reflexivity. }
  split; intros Hg.
  - assert (E' : create (AOptions options) s
                 = (Throw ReferenceError,
                    on_this (with_currentLocation (Some default_location)) stored)).
    { rewrite E. unfold getUsersLocation, mbind, gets. simpl. rewrite Hg.
      apply (getLocationError_without_zoom stored {| MapOptions._options := options |});
        [reflexivity|exact Hsel|exact Hv]. }
    split; [exact E'|]. rewrite E'. reflexivity.
  - assert (E' : create (AOptions options) s
                 = (Normal tt, on_page (with_position_requested true) stored)).
    { rewrite E. unfold getUsersLocation, mbind, gets, modify. simpl. rewrite Hg.
      reflexivity. }
    assert (E'' : getLocationError (on_page (with_position_requested true) stored)
                  = (Throw ReferenceError,
                     on_this (with_currentLocation (Some default_location))
                       (on_page (with_position_requested true) stored))).
    { apply (getLocationError_without_zoom _ {| MapOptions._options := options |});
        [reflexivity|exact Hsel|exact Hv]. }
    rewrite E'. cbn [snd]. rewrite E''. repeat split.
Qed.

Lemma create_default_without_global_zoom_witness :
  (fst (create (AOptions options_with_radius) ordinary_page) = Throw ReferenceError
   /\ _gMap (this (snd (create (AOptions options_with_radius) ordinary_page))) = None)
  /\ (fst (getLocationError
             (snd (create (AOptions options_with_radius) ordinary_requesting_page)))
      = Throw ReferenceError
      /\ _gMap (this (snd (getLocationError
                  (snd (create (AOptions options_with_radius) ordinary_requesting_page)))))
         = None).
Proof.
  split.
  - destruct (create_default_without_global_zoom options_with_radius ordinary_page)
      as [Hunavailable _]; try (vm_compute; reflexivity).
    destruct (Hunavailable eq_refl) as [Hrun _]. rewrite Hrun. split; reflexivity.
  - destruct (create_default_without_global_zoom options_with_radius
                ordinary_requesting_page)
      as [_ Hfails]; try (vm_compute; reflexivity).
    destruct (Hfails eq_refl) as (_ & Hrun & _). rewrite Hrun. split; reflexivity.
Defined.

(** ** Map: the callbacks and methods one by one *)

(** X11. The success callback of the position request: with a configuration
    that has its [selectors], in a page with a global [zoom], it returns
    with the position as the current location and the map, the marker and
    the circle drawn at it. *)
Theorem geoLocationSuccess_draws coords s mo :
  _mapOptions (this s) = Some mo ->
  is_Some (Options.selectors (MapOptions._options mo)) ->
  is_Some (globals (page s) !! "zoom") ->
  fst (geoLocationSuccess coords s) = Normal tt
  /\ all_at {| lat := latitude coords; lng := longitude coords |}
       (snd (geoLocationSuccess coords s))
  /\ _currentLocation (this (snd (geoLocationSuccess coords s)))
     = Some {| lat := latitude coords; lng := longitude coords |}.
Proof.
  intros Hmo [sel Hsel] Hv.
  destruct (radiusInMeters_total (document (page s)) mo (ex_intro _ sel Hsel)) as [r Hr].
  set (s1 := on_this (with_currentLocation
                        (Some {| lat := latitude coords; lng := longitude coords |})) s).
  change (geoLocationSuccess coords s) with (createMap s1).
  destruct (createMap_effect s1 mo sel r Hmo Hsel Hr Hv)
    as (Hn & Hg & Hm & Hk & _ & Hcl & _).
  unfold all_at, centers. rewrite Hn, Hg, Hm, Hk, Hcl. repeat split.
Qed.

Lemma geoLocationSuccess_draws_witness :
  all_at {| lat := 48.5; lng := 2.25 |}
    (snd (geoLocationSuccess {| latitude := 48.5; longitude := 2.25 |}
            (snd (create (AOptions options_with_radius) requesting_page)))).
Proof.
  apply (geoLocationSuccess_draws {| latitude := 48.5; longitude := 2.25 |}
           (snd (create (AOptions options_with_radius) requesting_page))
           {| MapOptions._options := options_with_radius |}).
  - reflexivity.
  - eexists. reflexivity.
  - exists VUndefined. vm_compute. reflexivity.
Defined.



(** The setter of the current location alone moves nothing that is drawn. *)
Lemma currentLocation_setter_alone :
  centers (snd (set_currentLocation (LObject {| latitude := 48.5; longitude := 2.25 |})
                  address_widget))
  = centers address_widget
  /\ _currentLocation
       (this (snd (set_currentLocation (LObject {| latitude := 48.5; longitude := 2.25 |})
                     address_widget)))
     = Some {| lat := 48.5; lng := 2.25 |}.
Proof. split; reflexivity. Qed.

(** X21. Each method, callback and listener of the widget keeps the drawing
    in step with the current location: from a state in which the widget is
    synchronized (if there is a map, then its center, the position of the
    marker and the center of the circle are the current location), [create],
    [updateLocation], the two position callbacks, the place listener, the
    radius listener and the callbacks of the geocoder lead to such a state
    again, whether they return or throw. (The bare setter of the current
    location, called by itself, does not.) *)
Theorem methods_keep_synchronized s :
  synchronized s ->
  (forall options, synchronized (snd (create options s)))
  /\ (forall location, synchronized (snd (updateLocation location s)))
  /\ (forall coords, synchronized (snd (geoLocationSuccess coords s)))
  /\ synchronized (snd (getLocationError s))
  /\ (forall place, synchronized (snd (autocompleteHandler place s)))
  /\ synchronized (snd (radiusListener s))
  /\ (forall fuel replies, synchronized (snd (service fuel replies s))).
Proof.
  intros Hs.
  split; [intros options; now apply synchronized_create|].
  split; [intros location; now apply synchronized_updateLocation|].
  split; [intros coords; now apply (synchronized_relocate (LObject coords))|].
  split; [now apply (synchronized_relocate
                       (LObject {| latitude := 5.6044018;
                                   longitude := -0.12188990000000001 |}))|].
  split; [intros place; now apply synchronized_autocompleteHandler|].
  split; [now apply synchronized_radiusListener|].
  intros fuel replies. now apply synchronized_service.
Qed.

Lemma methods_keep_synchronized_witness :
  centers (snd (updateLocation (LObject {| latitude := 48.5; longitude := 2.25 |})
                  address_widget))
  = (Some (Some {| lat := 48.5; lng := 2.25 |}),
     Some (Some {| lat := 48.5; lng := 2.25 |}),
     Some (Some {| lat := 48.5; lng := 2.25 |})).
Proof.
  destruct (methods_keep_synchronized address_widget
              (reachable_synchronized address_widget address_widget_reachable))
    as (_ & Hupdate & _).
  destruct (Hupdate (LObject {| latitude := 48.5; longitude := 2.25 |}))
    as (_ & Hdrawn & _).
  destruct Hdrawn as (_ & _ & _ & _ & Hc); [vm_compute; eauto|].
  rewrite Hc. reflexivity.
Defined.
